(** * Accessible single-select dropdowns and the password-reset form

    A shallow embedding of [CategoryFilter.tsx], [SortFilter] and the submit
    handler of [Forgotpassword.tsx], with the properties of their
    keyboard / pointer contract.

    Event handlers are written in a small writer-plus-exception monad: a
    handler produces the ordered trace of the effects it performed
    ([setIsOpen], [onChange], [focus], ...) and either completes normally or
    throws.  A component step runs the handler the rendered tree attaches to
    the event, applies the trace to the component state and then runs the
    [useEffect] that follows the commit.  The listbox lives under
    [AnimatePresence]: after a close it stays in the document until its
    exit animation ends, which is an event of its own. *)

From Stdlib Require Import ZArith List String Bool Lia.
From Stdlib Require Import DecimalString DecimalZ DecimalPos Permutation.
Import ListNotations.

Local Open Scope string_scope.
Local Open Scope list_scope.
Local Open Scope Z_scope.

(** ** The fragment of JavaScript the handlers use *)

Module JS.

(** Numbers that occur in the index arithmetic: integers, or NaN. *)
Inductive number : Type :=
| Int (z : Z)
| NaN.

(** [a % n] on integral operands: NaN when the divisor is zero, otherwise
    the remainder that takes the sign of the dividend. *)
Definition rem (a n : Z) : number :=
  if n =? 0 then NaN else Int (Z.rem a n).

(** [Math.max(a, b)] on integers. *)
Definition Math_max (a b : Z) : Z := Z.max a b.

(** [arr.findIndex(p)]: the first index whose element satisfies [p],
    or [-1]. *)
Fixpoint findIndex_from {A : Type} (p : A -> bool) (l : list A) (k : Z) : Z :=
  match l with
  | [] => -1
  | x :: l' => if p x then k else findIndex_from p l' (k + 1)
  end.

Definition findIndex {A : Type} (p : A -> bool) (l : list A) : Z :=
  findIndex_from p l 0.

(** [arr.find(p)]: the first element satisfying [p]; [None] is
    [undefined]. *)
Definition find {A : Type} (p : A -> bool) (l : list A) : option A :=
  List.find p l.

(** [arr[x]]: [undefined] for NaN, a negative index or one past the end. *)
Definition index {A : Type} (l : list A) (x : number) : option A :=
  match x with
  | NaN => None
  | Int z => if z <? 0 then None else nth_error l (Z.to_nat z)
  end.

(** Truthiness of a string: only the empty string is falsy. *)
Definition truthy_string (s : string) : bool :=
  negb (String.eqb s "").

(** [x?.f || d] on strings, [None] being [undefined]. *)
Definition or_else (x : option string) (d : string) : string :=
  match x with
  | Some s => if truthy_string s then s else d
  | None => d
  end.

(** [x?.f ?? d]. *)
Definition nullish_else (x : option string) (d : string) : string :=
  match x with
  | Some s => s
  | None => d
  end.

(** Values a JSON response body and the state that stores one can hold. *)
#[warnings="-register-all"] Inductive val : Type :=
| Undefined
| Null
| Bool (b : bool)
| Num (z : Z)
| Str (s : string)
| Arr (items : list val)
| Obj (fields : list (string * val)).

Definition truthy (v : val) : bool :=
  match v with
  | Undefined | Null => false
  | Bool b => b
  | Num z => negb (z =? 0)
  | Str s => truthy_string s
  | Arr _ | Obj _ => true
  end.

(** [a || b] *)
Definition or (a b : val) : val :=
  if truthy a then a else b.

(** The first binding of [f] in the fields of an object. *)
Fixpoint lookup (f : string) (fields : list (string * val)) : option val :=
  match fields with
  | [] => None
  | (k, v) :: rest => if String.eqb k f then Some v else lookup f rest
  end.

(** [`${z}`]: an integer inside a template literal prints in decimal. *)
Definition number_to_string (z : Z) : string :=
  NilZero.string_of_int (Z.to_int z).

(** [arr.map((x, i) => f x i)], counting from [k]. *)
Fixpoint map_indexed_from {A B : Type} (f : A -> Z -> B) (l : list A) (k : Z)
  : list B :=
  match l with
  | [] => []
  | x :: l' => f x k :: map_indexed_from f l' (k + 1)
  end.

Definition map_indexed {A B : Type} (f : A -> Z -> B) (l : list A) : list B :=
  map_indexed_from f l 0.

(** What can be thrown: a [TypeError], or the error axios rejects with,
    carrying the HTTP status when the server answered at all. *)
Inductive error : Type :=
| TypeError (msg : string)
| AxiosError (status : option Z).

End JS.

(** ** Handlers: an effect trace and a completion *)

Inductive completion (A : Type) : Type :=
| Normal (a : A)
| Throw (e : JS.error).
Arguments Normal {A} a.
Arguments Throw {A} e.

Section HandlerMonad.

Variable Eff : Type.

Definition handler (A : Type) : Type := (list Eff * completion A)%type.

Definition ret {A : Type} (a : A) : handler A := ([], Normal a).

Definition bind {A B : Type} (m : handler A) (k : A -> handler B) : handler B :=
  match m with
  | (t, Normal a) => let (t', c) := k a in (t ++ t', c)
  | (t, Throw e) => (t, Throw e)
  end.

Definition emit (e : Eff) : handler unit := ([e], Normal tt).

Definition throw {A : Type} (e : JS.error) : handler A := ([], Throw e).

(** [if (c) { body }] *)
Definition when (c : bool) (body : handler unit) : handler unit :=
  if c then body else ret tt.

(** [try { body } catch (err) { recover err }] *)
Definition try_catch (body : handler unit) (recover : JS.error -> handler unit)
  : handler unit :=
  match body with
  | (t, Normal a) => (t, Normal a)
  | (t, Throw e) => let (t', c) := recover e in (t ++ t', c)
  end.

(** [body finally { cleanup }] *)
Definition finally (body : handler unit) (cleanup : handler unit)
  : handler unit :=
  match body, cleanup with
  | (t, c), (t', Normal _) => (t ++ t', c)
  | (t, _), (t', Throw e) => (t ++ t', Throw e)
  end.

Definition trace {A : Type} (m : handler A) : list Eff := fst m.

Definition outcome {A : Type} (m : handler A) : completion A := snd m.

End HandlerMonad.

Arguments ret {Eff A} a.
Arguments bind {Eff A B} m k.
Arguments emit {Eff} e.
Arguments throw {Eff A} e.
Arguments when {Eff} c body.
Arguments try_catch {Eff} body recover.
Arguments finally {Eff} body cleanup.
Arguments trace {Eff A} m.
Arguments outcome {Eff A} m.

Declare Scope handler_scope.
Delimit Scope handler_scope with handler.
Notation "x <- m ;; k" := (bind m (fun x => k))
  (at level 61, m at next level, right associativity) : handler_scope.
Notation "m ;; k" := (bind m (fun _ => k))
  (at level 61, right associativity) : handler_scope.

(** ** The dropdown pattern shared by both filters *)

Record CategoryOption : Type := mkOption {
  value : string;
  label : string
}.

(** What a handler of a dropdown can do. *)
Inductive effect : Type :=
| PreventDefault                 (* e.preventDefault() *)
| SetIsOpen (b : bool)           (* setIsOpen(b) *)
| NegateIsOpen                   (* setIsOpen((v) => !v) *)
| FocusTrigger                   (* btnRef.current?.focus(); the trigger is
                                    always rendered, so the ref is set *)
| OnChange (v : string).         (* onChange(v) *)

(** The element that holds keyboard focus, as far as the control moves it. *)
Inductive focus_target : Type :=
| Elsewhere                      (* the document body, or outside the control *)
| Trigger
| Listbox.

(** [opt.value] on a possibly undefined option: reading a property of
    [undefined] throws. *)
Definition get_value (o : option CategoryOption) : handler effect string :=
  match o with
  | Some opt => ret (value opt)
  | None => throw (JS.TypeError "Cannot read properties of undefined (reading 'value')")
  end.

(** The values [onChange] was called with, in order. *)
Fixpoint notifications (t : list effect) : list string :=
  match t with
  | [] => []
  | OnChange v :: t' => v :: notifications t'
  | _ :: t' => notifications t'
  end.

(** [isOpen] after the queued state updates of a trace are applied. *)
Fixpoint apply_isOpen (t : list effect) (b : bool) : bool :=
  match t with
  | [] => b
  | SetIsOpen b' :: t' => apply_isOpen t' b'
  | NegateIsOpen :: t' => apply_isOpen t' (negb b)
  | _ :: t' => apply_isOpen t' b
  end.

(** Focus after the [focus()] calls of a trace. *)
Fixpoint apply_focus (t : list effect) (f : focus_target) : focus_target :=
  match t with
  | [] => f
  | FocusTrigger :: t' => apply_focus t' Trigger
  | _ :: t' => apply_focus t' f
  end.

(** The Host owns the selected value: given the value it currently stores and
    a value it is notified of, it decides what it stores next. *)
Definition host : Type := string -> string -> string.

(** A Host that applies every notification before the next event. *)
Definition echo : host := fun _ v => v.

(** A Host that ignores notifications. *)
Definition deaf : host := fun s _ => s.

(** One mounted control together with what can be observed around it.

    The listbox is a child of [AnimatePresence] with an [exit] transition:
    when [isOpen] turns false the listbox and its rows stay in the document,
    with the handlers of the last open render, until the exit animation has
    run; [exiting] records that phase. *)
Record widget : Type := mkWidget {
  isOpen : bool;                 (* useState(false) *)
  focus : focus_target;
  hostSelected : string;         (* the [selected] prop of the next render *)
  notified : list string;        (* every onChange call so far, in order *)
  uncaught : list JS.error;      (* errors thrown out of handlers *)
  exiting : bool                 (* closed, the listbox still animating out *)
}.

(** The state on mount, for a Host currently storing [sel]. *)
Definition mount (sel : string) : widget :=
  {| isOpen := false; focus := Elsewhere; hostSelected := sel;
     notified := []; uncaught := []; exiting := false |}.

(** What the pointer, the keyboard or the animation clock can deliver. *)
Inductive event : Type :=
| KeyDown (key : string)
| ClickTrigger
| ClickOption (row : nat)
| ClickOverlay
| ExitComplete.                  (* the exit animation of the listbox ends *)

(** [useEffect(() => { if (isOpen) listRef.current?.focus(); }, [isOpen])]
    after a commit that took [isOpen] from [before] to [after]. *)
Definition useEffect_focus (before after : bool) (f : focus_target) : focus_target :=
  if negb (Bool.eqb before after) then (if after then Listbox else f) else f.

Definition thrown {A : Type} (c : completion A) : list JS.error :=
  match c with
  | Normal _ => []
  | Throw e => [e]
  end.

(** Apply what a handler did to the widget, let the Host react to each
    notification, then run the effect of the commit.  A commit that leaves
    the control closed keeps a listbox that was on screen on screen, in its
    exit animation, and with it whatever focus it holds; a commit that
    leaves it open shows the present listbox. *)
Definition commit (h : host) (s : widget) (r : handler effect unit) : widget :=
  let t := trace r in
  let open' := apply_isOpen t (isOpen s) in
  {| isOpen := open';
     focus := useEffect_focus (isOpen s) open' (apply_focus t (focus s));
     hostSelected := fold_left h (notifications t) (hostSelected s);
     notified := notified s ++ notifications t;
     uncaught := uncaught s ++ thrown (outcome r);
     exiting := if open' then false else (isOpen s || exiting s) |}.

(** The exit animation ends: the listbox leaves the document, and focus
    that was on it falls back to the document body. *)
Definition exit_complete (s : widget) : widget :=
  if negb (isOpen s) && exiting s then
    {| isOpen := isOpen s;
       focus := match focus s with
                | Listbox => Elsewhere
                | f => f
                end;
       hostSelected := hostSelected s;
       notified := notified s;
       uncaught := uncaught s;
       exiting := false |}
  else s.

(** ** What rendering produces *)

(** [themeColor?: "purple" | "orange" | "yellow" | "red" | "slate"] *)
Inductive ThemeColor : Type :=
| purple
| orange
| yellow
| red
| slate.

(** [themeColor === "yellow"] *)
Definition is_yellow (c : ThemeColor) : bool :=
  match c with
  | yellow => true
  | _ => false
  end.

(** The [light] and [dark] tables of a filter. *)
Record Palette : Type := mkPalette {
  base_button : string;
  base_dropdown : string;
  base_item : string;
  accent : ThemeColor -> string
}.

(** The object [themeClasses] memoizes. *)
Record ThemeClasses : Type := mkThemeClasses {
  button : string;
  dropdown : string;
  item : string;
  dropdownBorder : string
}.

(** One rendered option row, by the attributes that identify it. *)
Record OptionRow : Type := mkRow {
  row_id : string;               (* id *)
  aria_selected : bool;          (* aria-selected *)
  react_key : string;            (* key *)
  row_text : string              (* the text of the row *)
}.

(** ** CategoryFilter.tsx *)

Module CategoryFilter.

(** The props as the component body sees them, defaults applied;
    [themeColor] only picks class names and is left out. *)
Record Props : Type := mkProps {
  selected : string;
  options : list CategoryOption;
  placeholder : string
}.

(** [placeholder = "All Categories"] when the caller gives none. *)
Definition default_placeholder : string := "All Categories".

Definition idxSelected (p : Props) : Z :=
  JS.Math_max 0
    (JS.findIndex (fun o => String.eqb (value o) (selected p)) (options p)).

Definition selectedLabel (p : Props) : string :=
  JS.or_else
    (option_map label
       (JS.find (fun o => String.eqb (value o) (selected p)) (options p)))
    (placeholder p).

Definition onKeyDown (p : Props) (isOpen : bool) (key : string)
  : handler effect unit :=
  if negb isOpen then ret tt else
  let n := Z.of_nat (List.length (options p)) in
  let i := JS.Math_max 0 (idxSelected p) in
  (when (String.eqb key "Escape")
     (emit (SetIsOpen false) ;;
      emit FocusTrigger) ;;
   when (String.eqb key "ArrowDown")
     (emit PreventDefault ;;
      let next := JS.index (options p) (JS.rem (i + 1) n) in
      v <- get_value next ;;
      emit (OnChange v)) ;;
   when (String.eqb key "ArrowUp")
     (emit PreventDefault ;;
      let prev := JS.index (options p) (JS.rem (i - 1 + n) n) in
      v <- get_value prev ;;
      emit (OnChange v)) ;;
   when (String.eqb key "Enter" || String.eqb key " ")
     (emit PreventDefault ;;
      emit (SetIsOpen false) ;;
      emit FocusTrigger))%handler.

(** [onClick={() => setIsOpen((v) => !v)}] of the trigger button. *)
Definition trigger_onClick : handler effect unit :=
  emit NegateIsOpen.

(** [onClick] of the row rendered for [opt]. *)
Definition option_onClick (opt : CategoryOption) : handler effect unit :=
  (emit (OnChange (value opt)) ;;
   emit (SetIsOpen false) ;;
   emit FocusTrigger)%handler.

(** [onClick={() => setIsOpen(false)}] of the full-viewport overlay. *)
Definition overlay_onClick : handler effect unit :=
  emit (SetIsOpen false).

(** The handler the rendered tree runs for an event.  The wrapper and the
    trigger are always rendered.  The overlay is rendered under [isOpen &&]
    only.  The rows are rendered while open and, being inside
    [AnimatePresence], stay clickable while the listbox animates out, so a
    row click reaches its handler then too; once the listbox has left, it
    reaches nothing.  The end of the animation runs no handler. *)
Definition dispatch (p : Props) (isOpen exiting : bool) (ev : event)
  : handler effect unit :=
  match ev with
  | KeyDown key => onKeyDown p isOpen key
  | ClickTrigger => trigger_onClick
  | ClickOption row =>
      if isOpen || exiting then
        match nth_error (options p) row with
        | Some opt => option_onClick opt
        | None => ret tt
        end
      else ret tt
  | ClickOverlay => if isOpen then overlay_onClick else ret tt
  | ExitComplete => ret tt
  end.

Section Session.

Variable h : host.
Variable opts : list CategoryOption.
Variable ph : string.

Definition render (s : widget) : Props :=
  {| selected := hostSelected s; options := opts; placeholder := ph |}.

Definition step (s : widget) (ev : event) : widget :=
  match ev with
  | ExitComplete => exit_complete s
  | _ => commit h s (dispatch (render s) (isOpen s) (exiting s) ev)
  end.

Definition run (s : widget) (evs : list event) : widget :=
  fold_left step evs s.

End Session.

Definition light : Palette :=
  {| base_button :=
       "bg-gray-200/50 hover:bg-opacity-70 text-gray-700 border-gray-300/50";
     base_dropdown := "bg-white border-gray-200";
     base_item := "hover:bg-opacity-70 text-gray-700";
     accent := fun c =>
       match c with
       | purple => "hover:bg-purple-100 hover:text-purple-700"
       | orange => "hover:bg-orange-100 hover:text-orange-700"
       | yellow =>
           "border-yellow-400/40 hover:bg-yellow-100 hover:text-yellow-700"
       | red => "hover:bg-red-100 hover:text-red-700"
       | slate => "hover:bg-slate-100 hover:text-slate-700"
       end |}.

Definition dark : Palette :=
  {| base_button :=
       "bg-gray-700/50 hover:bg-opacity-60 text-gray-300 border-gray-600/50";
     base_dropdown := "bg-gray-800 border-gray-700";
     base_item := "hover:bg-opacity-60 text-gray-300";
     accent := fun c =>
       match c with
       | purple => "hover:bg-purple-500/20 hover:text-purple-300"
       | orange => "hover:bg-orange-500/20 hover:text-orange-300"
       | yellow =>
           "border-yellow-500/30 hover:bg-yellow-500/20 hover:text-yellow-300"
       | red => "hover:bg-red-500/20 hover:text-red-300"
       | slate => "hover:bg-slate-500/20 hover:text-slate-300"
       end |}.

(** [themeColor = "purple"] when the caller gives none. *)
Definition default_themeColor : ThemeColor := purple.

Definition themeClasses (isDark : bool) (themeColor : ThemeColor) : ThemeClasses :=
  let base := if isDark then dark else light in
  {| button := base_button base;
     dropdown := base_dropdown base;
     item := String.append (base_item base)
               (String.append " " (accent base themeColor));
     dropdownBorder :=
       if is_yellow themeColor
       then (if isDark then "border-yellow-500/30" else "border-yellow-400/40")
       else "" |}.

(** [aria-activedescendant={`cat-${idxSelected}`}] of the listbox. *)
Definition aria_activedescendant (p : Props) : string :=
  String.append "cat-" (JS.number_to_string (idxSelected p)).

(** The rows [options.map((opt, i) => ...)] renders. *)
Definition option_rows (p : Props) : list OptionRow :=
  JS.map_indexed
    (fun opt i =>
       let active := String.eqb (selected p) (value opt) in
       {| row_id := String.append "cat-" (JS.number_to_string i);
          aria_selected := active;
          react_key := JS.or_else (Some (value opt)) "__all";
          row_text := label opt |})
    (options p).

End CategoryFilter.

(** ** SortFilter *)

Module SortFilter.

(** [type SortValue = "mostRecent" | "oldest"]; at run time a string. *)
Inductive SortValue : Type :=
| mostRecent
| oldest.

Definition to_string (v : SortValue) : string :=
  match v with
  | mostRecent => "mostRecent"
  | oldest => "oldest"
  end.

Record Labels : Type := mkLabels {
  label_mostRecent : string;
  label_oldest : string
}.

(** [labels = { mostRecent: "Most Recent", oldest: "Oldest" }] by default. *)
Definition default_labels : Labels :=
  {| label_mostRecent := "Most Recent"; label_oldest := "Oldest" |}.

Record Props : Type := mkProps {
  selected : string;
  labels : Labels
}.

Definition options (p : Props) : list CategoryOption :=
  [ {| value := to_string mostRecent; label := label_mostRecent (labels p) |};
    {| value := to_string oldest; label := label_oldest (labels p) |} ].

Definition idxSelected (p : Props) : Z :=
  JS.Math_max 0
    (JS.findIndex (fun o => String.eqb (value o) (selected p)) (options p)).

Definition selectedLabel (p : Props) : string :=
  JS.nullish_else
    (option_map label (JS.index (options p) (JS.Int (idxSelected p))))
    (label_mostRecent (labels p)).

Definition onKeyDown (p : Props) (isOpen : bool) (key : string)
  : handler effect unit :=
  if negb isOpen then ret tt else
  let n := Z.of_nat (List.length (options p)) in
  let i := JS.Math_max 0 (idxSelected p) in
  (when (String.eqb key "Escape")
     (emit (SetIsOpen false) ;;
      emit FocusTrigger) ;;
   when (String.eqb key "ArrowDown")
     (emit PreventDefault ;;
      v <- get_value (JS.index (options p) (JS.rem (i + 1) n)) ;;
      emit (OnChange v)) ;;
   when (String.eqb key "ArrowUp")
     (emit PreventDefault ;;
      v <- get_value (JS.index (options p) (JS.rem (i - 1 + n) n)) ;;
      emit (OnChange v)) ;;
   when (String.eqb key "Enter" || String.eqb key " ")
     (emit PreventDefault ;;
      emit (SetIsOpen false) ;;
      emit FocusTrigger))%handler.

Definition trigger_onClick : handler effect unit :=
  emit NegateIsOpen.

Definition option_onClick (opt : CategoryOption) : handler effect unit :=
  (emit (OnChange (value opt)) ;;
   emit (SetIsOpen false) ;;
   emit FocusTrigger)%handler.

Definition overlay_onClick : handler effect unit :=
  emit (SetIsOpen false).

(** As in the category filter: rows stay clickable while the listbox
    animates out. *)
Definition dispatch (p : Props) (isOpen exiting : bool) (ev : event)
  : handler effect unit :=
  match ev with
  | KeyDown key => onKeyDown p isOpen key
  | ClickTrigger => trigger_onClick
  | ClickOption row =>
      if isOpen || exiting then
        match nth_error (options p) row with
        | Some opt => option_onClick opt
        | None => ret tt
        end
      else ret tt
  | ClickOverlay => if isOpen then overlay_onClick else ret tt
  | ExitComplete => ret tt
  end.

Section Session.

Variable h : host.
Variable lbls : Labels.

Definition render (s : widget) : Props :=
  {| selected := hostSelected s; labels := lbls |}.

Definition step (s : widget) (ev : event) : widget :=
  match ev with
  | ExitComplete => exit_complete s
  | _ => commit h s (dispatch (render s) (isOpen s) (exiting s) ev)
  end.

Definition run (s : widget) (evs : list event) : widget :=
  fold_left step evs s.

End Session.

Definition light : Palette :=
  {| base_button :=
       "bg-gray-200/50 hover:bg-opacity-70 text-gray-700 border-gray-300/50";
     base_dropdown := "bg-white border-gray-200";
     base_item := "hover:bg-opacity-70 text-gray-700";
     accent := fun c =>
       match c with
       | purple => "hover:bg-purple-100 hover:text-purple-700"
       | orange => "hover:bg-orange-100 hover:text-orange-700"
       | yellow => "border-yellow-400/40 hover:bg-yellow-100 hover:text-yellow-700"
       | red => "hover:bg-red-100 hover:text-red-700"
       | slate => "hover:bg-slate-100 hover:text-slate-700"
       end |}.

Definition dark : Palette :=
  {| base_button :=
       "bg-gray-700/50 hover:bg-opacity-60 text-gray-300 border-gray-600/50";
     base_dropdown := "bg-gray-800 border-gray-700";
     base_item := "hover:bg-opacity-60 text-gray-300";
     accent := fun c =>
       match c with
       | purple => "hover:bg-purple-500/20 hover:text-purple-300"
       | orange => "hover:bg-orange-500/20 hover:text-orange-300"
       | yellow => "border-yellow-500/30 hover:bg-yellow-500/20 hover:text-yellow-300"
       | red => "hover:bg-red-500/20 hover:text-red-300"
       | slate => "hover:bg-slate-500/20 hover:text-slate-300"
       end |}.

(** [themeColor = "slate"] when the caller gives none. *)
Definition default_themeColor : ThemeColor := slate.

Definition themeClasses (isDark : bool) (themeColor : ThemeColor) : ThemeClasses :=
  let base := if isDark then dark else light in
  {| button := base_button base;
     dropdown := base_dropdown base;
     item := String.append (base_item base)
               (String.append " " (accent base themeColor));
     dropdownBorder :=
       if is_yellow themeColor
       then (if isDark then "border-yellow-500/30" else "border-yellow-400/40")
       else "" |}.

(** [aria-activedescendant={`sort-${idxSelected}`}] of the listbox. *)
Definition aria_activedescendant (p : Props) : string :=
  String.append "sort-" (JS.number_to_string (idxSelected p)).

(** The rows [options.map((opt, i) => ...)] renders. *)
Definition option_rows (p : Props) : list OptionRow :=
  JS.map_indexed
    (fun opt i =>
       let active := String.eqb (selected p) (value opt) in
       {| row_id := String.append "sort-" (JS.number_to_string i);
          aria_selected := active;
          react_key := value opt;
          row_text := label opt |})
    (options p).

End SortFilter.

(** ** Forgotpassword.tsx: the submit handler *)

Module ForgotPassword.

(** The page's four [useState] cells. *)
Record form : Type := mkForm {
  email : string;
  message : JS.val;
  error : string;
  isLoading : bool
}.

(** The state on mount. *)
Definition initial : form :=
  {| email := ""; message := JS.Str ""; error := ""; isLoading := false |}.

Inductive effect : Type :=
| PreventDefault
| SetMessage (v : JS.val)
| SetError (s : string)
| SetIsLoading (b : bool)
| Post (url : string) (body : JS.val)      (* axios.post(url, body) *)
| ConsoleError (err : JS.error).

(** How the awaited [axios.post] settles: resolved with [response.data],
    or rejected (no response at all, or a status outside 2xx). *)
Inductive settled : Type :=
| Resolved (data : JS.val)
| Rejected (err : JS.error).

(** The backend seen from the page: what a POST to a URL with a body
    settles to. *)
Definition backend : Type := string -> JS.val -> settled.

(** [await axios.post(url, body)] *)
Definition axios_post (srv : backend) (url : string) (body : JS.val)
  : handler effect JS.val :=
  (emit (Post url body) ;;
   match srv url body with
   | Resolved data => ret data
   | Rejected err => throw err
   end)%handler.

(** [data.message]: throws on [null] and [undefined], is [undefined] on a
    value without that property. *)
Definition get_message (data : JS.val) : handler effect JS.val :=
  match data with
  | JS.Undefined | JS.Null =>
      throw (JS.TypeError "Cannot read properties of null (reading 'message')")
  | JS.Obj fields =>
      match JS.lookup "message" fields with
      | Some v => ret v
      | None => ret JS.Undefined
      end
  | _ => ret JS.Undefined
  end.

(** The [message] property of a body that has properties at all. *)
Definition message_field (data : JS.val) : JS.val :=
  match data with
  | JS.Obj fields =>
      match JS.lookup "message" fields with
      | Some v => v
      | None => JS.Undefined
      end
  | _ => JS.Undefined
  end.

Definition success_default : string := "Password reset link sent!".

Definition generic_error : string :=
  "Error sending reset email. Please try again.".

Section Page.

(** [import.meta.env.VITE_BACKEND_URL] *)
Variable VITE_BACKEND_URL : string.
Variable srv : backend.

Definition handleForgotPassword (s : form) : handler effect unit :=
  (emit PreventDefault ;;
   emit (SetMessage (JS.Str "")) ;;
   emit (SetError "") ;;
   emit (SetIsLoading true) ;;
   finally
     (try_catch
        (data <- axios_post srv
                   (String.append VITE_BACKEND_URL "/forgot-password")
                   (JS.Obj [("email", JS.Str (email s))]) ;;
         m <- get_message data ;;
         emit (SetMessage (JS.or m (JS.Str success_default))))
        (fun err =>
           emit (ConsoleError err) ;;
           emit (SetError generic_error)))
     (emit (SetIsLoading false)))%handler.

Definition apply (s : form) (e : effect) : form :=
  match e with
  | SetMessage v =>
      {| email := email s; message := v; error := error s;
         isLoading := isLoading s |}
  | SetError x =>
      {| email := email s; message := message s; error := x;
         isLoading := isLoading s |}
  | SetIsLoading b =>
      {| email := email s; message := message s; error := error s;
         isLoading := b |}
  | PreventDefault | Post _ _ | ConsoleError _ => s
  end.

(** The page state once a submit has run to its end. *)
Definition submit (s : form) : form :=
  fold_left apply (trace (handleForgotPassword s)) s.

(** The requests a submit sent, in order. *)
Fixpoint posts (t : list effect) : list (string * JS.val) :=
  match t with
  | [] => []
  | Post url body :: t' => (url, body) :: posts t'
  | _ :: t' => posts t'
  end.

(** The effects performed up to the point where the handler awaits the
    request. *)
Fixpoint until_post (t : list effect) : list effect :=
  match t with
  | [] => []
  | Post url body :: _ => [Post url body]
  | e :: t' => e :: until_post t'
  end.

(** The page state while the request is in flight. *)
Definition in_flight (s : form) : form :=
  fold_left apply (until_post (trace (handleForgotPassword s))) s.

End Page.

(** [onChange={(e) => setEmail(e.target.value)}] of the input. *)
Definition input_onChange (typed : string) (s : form) : form :=
  {| email := typed; message := message s; error := error s;
     isLoading := isLoading s |}.

(** [disabled={isLoading}] of the submit button. *)
Definition submit_disabled (s : form) : bool := isLoading s.

(** What React puts on screen for a value used as a child: text for
    strings and numbers, nothing for booleans, [null] and [undefined], the
    items one after the other for an array; an object is not a valid child
    and makes rendering throw ([None]). *)
Fixpoint child_text (v : JS.val) : option string :=
  match v with
  | JS.Undefined | JS.Null | JS.Bool _ => Some ""
  | JS.Num z => Some (JS.number_to_string z)
  | JS.Str x => Some x
  | JS.Obj _ => None
  | JS.Arr items =>
      (fix children (l : list JS.val) : option string :=
         match l with
         | [] => Some ""
         | x :: l' =>
             match child_text x, children l' with
             | Some a, Some b => Some (String.append a b)
             | _, _ => None
             end
         end) items
  end.

(** What an expression of the shape [{cell && (<banner>{cell}</banner>)}]
    puts on screen. *)
Inductive rendering : Type :=
| Nothing                        (* no element *)
| Banner (text : string)         (* the banner, around this text *)
| Bare (text : string)           (* a falsy number, printed without a banner *)
| Crash.                         (* rendering throws *)

(** [{message && (... {message} ...)}]: a falsy message is itself the
    child; a truthy one is rendered inside the banner. *)
Definition message_banner (s : form) : rendering :=
  if JS.truthy (message s) then
    match child_text (message s) with
    | Some text => Banner text
    | None => Crash
    end
  else
    match message s with
    | JS.Num z => Bare (JS.number_to_string z)
    | _ => Nothing
    end.

(** The text of the message banner, when there is one. *)
Definition displayed_message (s : form) : option string :=
  match message_banner s with
  | Banner text => Some text
  | _ => None
  end.

(** [{error && (... {error} ...)}] *)
Definition displayed_error (s : form) : option string :=
  if JS.truthy_string (error s) then Some (error s) else None.



End ForgotPassword.

(** ** Vocabulary for the statements *)

(** The value of the option at index [z] of an OptionSet. *)
Definition value_at (opts : list CategoryOption) (z : Z) : string :=
  nth (Z.to_nat z) (map value opts) "".

(** The number of options, as the handlers compute it. *)
Definition size (opts : list CategoryOption) : Z :=
  Z.of_nat (List.length opts).

(** An OptionSet has unique values. *)
Definition unique_values (opts : list CategoryOption) : Prop :=
  NoDup (map value opts).

(** The props of a sort filter seen as props of a category filter. *)
Definition as_category (p : SortFilter.Props) (ph : string) : CategoryFilter.Props :=
  {| CategoryFilter.selected := SortFilter.selected p;
     CategoryFilter.options := SortFilter.options p;
     CategoryFilter.placeholder := ph |}.

(** [k] presses of one key. *)
Definition presses (key : string) (k : nat) : list event :=
  repeat (KeyDown key) k.

(** ** Sample data *)

Module Sample.

(** The OptionSet of the sort filter with its default labels. *)
Definition sort_options : list CategoryOption :=
  SortFilter.options
    {| SortFilter.selected := "mostRecent";
       SortFilter.labels := SortFilter.default_labels |}.

(** A category OptionSet headed by the "All Categories" entry. *)
Definition categories : list CategoryOption :=
  [ {| value := ""; label := "All Categories" |};
    {| value := "art"; label := "Art" |};
    {| value := "music"; label := "Music" |} ].

(** A list in which one value occurs twice, as the type allows. *)
Definition repeated : list CategoryOption :=
  [ {| value := "a"; label := "A" |};
    {| value := "b"; label := "B" |};
    {| value := "b"; label := "B again" |};
    {| value := "c"; label := "" |} ].

(** A control that has just been opened by its trigger. *)
Definition opened (sel : string) : widget :=
  {| isOpen := true; focus := Listbox; hostSelected := sel;
     notified := []; uncaught := []; exiting := false |}.

(** A backend that accepts every request with a fixed body. *)
Definition accepting (data : JS.val) : ForgotPassword.backend :=
  fun _ _ => ForgotPassword.Resolved data.

(** A backend that fails every request the same way. *)
Definition failing (err : JS.error) : ForgotPassword.backend :=
  fun _ _ => ForgotPassword.Rejected err.

Definition filled (addr : string) : ForgotPassword.form :=
  {| ForgotPassword.email := addr;
     ForgotPassword.message := JS.Str "";
     ForgotPassword.error := "";
     ForgotPassword.isLoading := false |}.

End Sample.

(** * Properties *)

(** ** Arrays and index arithmetic *)

Module JSFacts.

Section FindIndex.

Context {A : Type}.
Variable p : A -> bool.

Lemma findIndex_from_range (l : list A) (k : Z) :
  JS.findIndex_from p l k = -1 \/
  k <= JS.findIndex_from p l k < k + Z.of_nat (List.length l).
Proof.
  revert k; induction l as [|x l IH]; intro k; simpl.
  - now left.
  - destruct (p x).
    + right; lia.
    + destruct (IH (k + 1)) as [E | R]; [now left | right; lia].
Qed.

Lemma findIndex_from_none (l : list A) (k : Z) :
  (forall x, In x l -> p x = false) -> JS.findIndex_from p l k = -1.
Proof.
  revert k; induction l as [|x l IH]; intros k Hall; simpl.
  - reflexivity.
  - rewrite (Hall x (or_introl eq_refl)).
    apply IH; intros y Hy; apply Hall; now right.
Qed.

Lemma find_none (l : list A) :
  (forall x, In x l -> p x = false) -> JS.find p l = None.
Proof.
  unfold JS.find; induction l as [|x l IH]; intros Hall; simpl.
  - reflexivity.
  - rewrite (Hall x (or_introl eq_refl)).
    apply IH; intros y Hy; apply Hall; now right.
Qed.

(** [findIndex] stops at the first hit. *)
Lemma findIndex_from_first (l : list A) (k : Z) (j : nat) (x : A) :
  nth_error l j = Some x ->
  p x = true ->
  (forall j' y, (j' < j)%nat -> nth_error l j' = Some y -> p y = false) ->
  JS.findIndex_from p l k = k + Z.of_nat j.
Proof.
  revert k j; induction l as [|a l IH]; intros k j Hnth Hp Hbefore.
  - destruct j; discriminate.
  - destruct j as [|j]; simpl in *.
    + injection Hnth as ->. rewrite Hp. lia.
    + rewrite (Hbefore 0%nat a); [|lia|reflexivity].
      rewrite (IH (k + 1) j); [lia|assumption|assumption|].
      intros j' y Hlt Hy. apply (Hbefore (S j') y); [lia|exact Hy].
Qed.

End FindIndex.

Lemma rem_nonneg (a n : Z) :
  0 <= a -> 0 < n -> JS.rem a n = JS.Int (a mod n).
Proof.
  intros Ha Hn. unfold JS.rem.
  destruct (Z.eqb_spec n 0); [lia|].
  now rewrite Z.rem_mod_nonneg by lia.
Qed.

Lemma rem_zero (a : Z) : JS.rem a 0 = JS.NaN.
Proof. reflexivity. Qed.

Lemma index_in_range {A : Type} (l : list A) (z : Z) :
  0 <= z < Z.of_nat (List.length l) ->
  exists x, JS.index l (JS.Int z) = Some x /\ nth_error l (Z.to_nat z) = Some x.
Proof.
  intros Hz. unfold JS.index.
  destruct (Z.ltb_spec z 0); [lia|].
  destruct (nth_error l (Z.to_nat z)) as [x|] eqn:E.
  - now exists x.
  - apply nth_error_None in E. lia.
Qed.

End JSFacts.

(** ** Index resolution in an OptionSet *)

Module OptionSetFacts.

Import CategoryFilter.

Lemma size_pos (opts : list CategoryOption) : opts <> [] -> 0 < size opts.
Proof. unfold size; destruct opts; [congruence | simpl; lia]. Qed.

Lemma idxSelected_range (p : Props) :
  0 <= idxSelected p /\ (options p <> [] -> idxSelected p < size (options p)).
Proof.
  unfold idxSelected, JS.Math_max, JS.findIndex, size.
  destruct (JSFacts.findIndex_from_range
              (fun o => String.eqb (value o) (selected p)) (options p) 0)
    as [E | R].
  - rewrite E. split; [lia|]. intros Hne. apply size_pos in Hne.
    unfold size in Hne. lia.
  - split; lia.
Qed.

Lemma value_at_nth (opts : list CategoryOption) (j : nat) (o : CategoryOption) :
  nth_error opts j = Some o -> value_at opts (Z.of_nat j) = value o.
Proof.
  intros H. unfold value_at. rewrite Nat2Z.id.
  apply nth_error_nth. now rewrite nth_error_map, H.
Qed.

(** With unique values, the option at index [j] resolves back to [j]. *)
Lemma findIndex_unique (opts : list CategoryOption) (j : nat) (o : CategoryOption) :
  unique_values opts ->
  nth_error opts j = Some o ->
  JS.findIndex (fun o' => String.eqb (value o') (value o)) opts = Z.of_nat j.
Proof.
  intros Hnd Hnth. unfold JS.findIndex.
  rewrite (JSFacts.findIndex_from_first _ opts 0 j o Hnth); [lia | apply String.eqb_refl |].
  intros j' y Hlt Hy. apply String.eqb_neq. intro Heq.
  assert (Hj : (j < List.length (map value opts))%nat)
    by (rewrite length_map; apply nth_error_Some; congruence).
  assert (j' = j); [|lia].
  apply (proj1 (NoDup_nth (map value opts) "") Hnd); [lia | exact Hj |].
  rewrite (nth_error_nth (map value opts) j' "" (x := value y))
    by (now rewrite nth_error_map, Hy).
  rewrite (nth_error_nth (map value opts) j "" (x := value o))
    by (now rewrite nth_error_map, Hnth).
  exact Heq.
Qed.

Lemma idxSelected_value_at (opts : list CategoryOption) (ph : string) (z : Z) :
  unique_values opts ->
  0 <= z < size opts ->
  idxSelected {| selected := value_at opts z; options := opts; placeholder := ph |} = z.
Proof.
  intros Hnd Hz.
  destruct (JSFacts.index_in_range opts z Hz) as [o [_ Hnth]].
  assert (Hv : value_at opts z = value o)
    by (rewrite <- (value_at_nth opts _ o Hnth); f_equal; lia).
  unfold idxSelected; simpl.
  rewrite Hv, (findIndex_unique opts _ o Hnd Hnth).
  unfold JS.Math_max. lia.
Qed.

(** Reading [options[a % n].value] succeeds on a non-empty OptionSet. *)
Lemma get_value_rem (opts : list CategoryOption) (a : Z) :
  opts <> [] ->
  0 <= a ->
  get_value (JS.index opts (JS.rem a (size opts)))
  = ret (value_at opts (a mod size opts)).
Proof.
  intros Hne Ha. pose proof (size_pos opts Hne) as Hn.
  rewrite JSFacts.rem_nonneg by assumption.
  assert (Hr : 0 <= a mod size opts < size opts) by (apply Z.mod_pos_bound; lia).
  destruct (JSFacts.index_in_range opts _ Hr) as [o [Hi Hnth]].
  rewrite Hi; simpl.
  rewrite <- (value_at_nth opts _ o Hnth), Z2Nat.id by lia.
  reflexivity.
Qed.

(** On the empty OptionSet the same read throws. *)
Lemma get_value_rem_empty (a : Z) :
  get_value (JS.index (@nil CategoryOption) (JS.rem a (size [])))
  = throw (JS.TypeError "Cannot read properties of undefined (reading 'value')").
Proof. reflexivity. Qed.

End OptionSetFacts.

(** ** CategoryFilter: what each handler does *)

Module CategoryFilterFacts.

Import CategoryFilter.

Ltac run_handler :=
  cbn [negb orb andb when bind ret emit throw app
       String.eqb Ascii.eqb Bool.eqb fst snd trace outcome].

Lemma run_cons (h : host) (opts : list CategoryOption) (ph : string)
  (s : widget) (ev : event) (evs : list event) :
  run h opts ph s (ev :: evs) = run h opts ph (step h opts ph s ev) evs.
Proof. reflexivity. Qed.

Lemma run_nil (h : host) (opts : list CategoryOption) (ph : string) (s : widget) :
  run h opts ph s [] = s.
Proof. reflexivity. Qed.

Lemma max0_idxSelected (p : Props) :
  JS.Math_max 0 (idxSelected p) = idxSelected p.
Proof.
  unfold JS.Math_max. pose proof (OptionSetFacts.idxSelected_range p). lia.
Qed.

Lemma onKeyDown_closed (p : Props) (key : string) :
  onKeyDown p false key = ret tt.
Proof. reflexivity. Qed.

Lemma onKeyDown_Escape (p : Props) :
  onKeyDown p true "Escape" = ([SetIsOpen false; FocusTrigger], Normal tt).
Proof. reflexivity. Qed.

Lemma onKeyDown_Enter (p : Props) :
  onKeyDown p true "Enter"
  = ([PreventDefault; SetIsOpen false; FocusTrigger], Normal tt).
Proof. reflexivity. Qed.

Lemma onKeyDown_Space (p : Props) :
  onKeyDown p true " "
  = ([PreventDefault; SetIsOpen false; FocusTrigger], Normal tt).
Proof. reflexivity. Qed.

Lemma onKeyDown_ArrowDown (p : Props) :
  options p <> [] ->
  onKeyDown p true "ArrowDown"
  = ([PreventDefault;
      OnChange (value_at (options p)
                  ((idxSelected p + 1) mod size (options p)))],
     Normal tt).
Proof.
  intros Hne. pose proof (OptionSetFacts.idxSelected_range p) as [H0 _].
  unfold onKeyDown. cbv zeta. rewrite max0_idxSelected.
  fold (size (options p)). run_handler.
  rewrite OptionSetFacts.get_value_rem by (assumption || lia).
  reflexivity.
Qed.

Lemma onKeyDown_ArrowUp (p : Props) :
  options p <> [] ->
  onKeyDown p true "ArrowUp"
  = ([PreventDefault;
      OnChange (value_at (options p)
                  ((idxSelected p - 1 + size (options p)) mod size (options p)))],
     Normal tt).
Proof.
  intros Hne. pose proof (OptionSetFacts.idxSelected_range p) as [H0 _].
  pose proof (OptionSetFacts.size_pos _ Hne).
  unfold onKeyDown. cbv zeta. rewrite max0_idxSelected.
  fold (size (options p)). run_handler.
  rewrite OptionSetFacts.get_value_rem by (assumption || lia).
  reflexivity.
Qed.

(** On a non-empty OptionSet no key makes the handler throw. *)
Lemma onKeyDown_normal (p : Props) (o : bool) (key : string) :
  options p <> [] ->
  outcome (onKeyDown p o key) = Normal tt.
Proof.
  intros Hne. destruct o; [|reflexivity].
  pose proof (OptionSetFacts.idxSelected_range p) as [H0 _].
  pose proof (OptionSetFacts.size_pos _ Hne).
  unfold onKeyDown. cbv zeta. rewrite max0_idxSelected.
  fold (size (options p)).
  destruct (String.eqb key "Escape"), (String.eqb key "ArrowDown"),
    (String.eqb key "ArrowUp"), (String.eqb key "Enter"), (String.eqb key " ");
    repeat (run_handler;
            rewrite ?OptionSetFacts.get_value_rem by (assumption || lia));
    reflexivity.
Qed.

(** The keys the handler reacts to are pairwise distinct, so at most one of
    its four [if]s fires; whatever the key, a trace that notifies does not
    close and a trace that closes does not notify. *)
Lemma onKeyDown_notify_or_close (p : Props) (key : string) :
  notifications (trace (onKeyDown p true key)) = [] \/
  apply_isOpen (trace (onKeyDown p true key)) true = true.
Proof.
  unfold onKeyDown. cbv zeta. cbn [negb].
  destruct (String.eqb_spec key "Escape") as [->|_]; [now left|].
  destruct (String.eqb_spec key "Enter") as [->|_]; [now left|].
  destruct (String.eqb_spec key " ") as [->|_]; [now left|].
  destruct (String.eqb_spec key "ArrowDown") as [->|_].
  - right. run_handler.
    destruct (JS.index (options p) _); reflexivity.
  - destruct (String.eqb_spec key "ArrowUp") as [->|_].
    + right. run_handler.
      destruct (JS.index (options p) _); reflexivity.
    + now left.
Qed.

End CategoryFilterFacts.

(** ** SortFilter is the same control on its two fixed options *)

Module SortFilterFacts.

(** The sort filter's key handler is the category filter's, run on the two
    sort options. *)
Lemma onKeyDown_same (p : SortFilter.Props) (ph : string) (o : bool) (key : string) :
  SortFilter.onKeyDown p o key = CategoryFilter.onKeyDown (as_category p ph) o key.
Proof. reflexivity. Qed.

Lemma step_same (h : host) (lbls : SortFilter.Labels) (ph : string)
  (s : widget) (ev : event) :
  SortFilter.step h lbls s ev
  = CategoryFilter.step h
      [ {| value := "mostRecent"; label := SortFilter.label_mostRecent lbls |};
        {| value := "oldest"; label := SortFilter.label_oldest lbls |} ]
      ph s ev.
Proof. destruct ev; reflexivity. Qed.

Lemma run_same (h : host) (lbls : SortFilter.Labels) (ph : string)
  (evs : list event) (s : widget) :
  SortFilter.run h lbls s evs
  = CategoryFilter.run h
      [ {| value := "mostRecent"; label := SortFilter.label_mostRecent lbls |};
        {| value := "oldest"; label := SortFilter.label_oldest lbls |} ]
      ph s evs.
Proof.
  revert s. induction evs as [|ev evs IH]; intros s.
  - reflexivity.
  - unfold SortFilter.run, CategoryFilter.run in *. simpl.
    rewrite (step_same h lbls ph). apply IH.
Qed.

Lemma sort_values_unique (lbls : SortFilter.Labels) :
  unique_values
    [ {| value := "mostRecent"; label := SortFilter.label_mostRecent lbls |};
      {| value := "oldest"; label := SortFilter.label_oldest lbls |} ].
Proof.
  unfold unique_values; simpl.
  repeat constructor; simpl; intuition discriminate.
Qed.

End SortFilterFacts.

(** ** CategoryFilter: the keyboard and pointer contract *)

Module CategoryFilterSpec.

Import CategoryFilter.

Section OneStep.

Variable h : host.
Variable opts : list CategoryOption.
Variable ph : string.

Lemma step_ArrowDown (s : widget) :
  opts <> [] ->
  isOpen s = true ->
  step h opts ph s (KeyDown "ArrowDown")
  = let v := value_at opts
               ((idxSelected (render opts ph s) + 1) mod size opts) in
    {| isOpen := true; focus := focus s;
       hostSelected := h (hostSelected s) v;
       notified := notified s ++ [v];
       uncaught := uncaught s;
       exiting := false |}.
Proof.
  intros Hne Ho. unfold step, dispatch. rewrite Ho.
  rewrite CategoryFilterFacts.onKeyDown_ArrowDown by exact Hne.
  unfold commit; simpl. rewrite Ho, app_nil_r. reflexivity.
Qed.

Lemma step_ArrowUp (s : widget) :
  opts <> [] ->
  isOpen s = true ->
  step h opts ph s (KeyDown "ArrowUp")
  = let v := value_at opts
               ((idxSelected (render opts ph s) - 1 + size opts)
                  mod size opts) in
    {| isOpen := true; focus := focus s;
       hostSelected := h (hostSelected s) v;
       notified := notified s ++ [v];
       uncaught := uncaught s;
       exiting := false |}.
Proof.
  intros Hne Ho. unfold step, dispatch. rewrite Ho.
  rewrite CategoryFilterFacts.onKeyDown_ArrowUp by exact Hne.
  unfold commit; simpl. rewrite Ho, app_nil_r. reflexivity.
Qed.

End OneStep.

Lemma nonempty_of_size (opts : list CategoryOption) :
  1 <= size opts -> opts <> [].
Proof. unfold size; destruct opts; simpl; [lia | discriminate]. Qed.

(** Repeated ArrowDown under an echoing Host, by induction on the number
    of presses: each press re-resolves the index from the value the Host
    stored at the previous one. *)
Lemma run_ArrowDown_echo
  (opts : list CategoryOption) (ph : string) (k : nat) (s : widget) (i : Z) :
  1 <= size opts ->
  unique_values opts ->
  isOpen s = true ->
  idxSelected (render opts ph s) = i ->
  let s' := run echo opts ph s (presses "ArrowDown" k) in
  isOpen s' = true /\
  idxSelected (render opts ph s') = (i + Z.of_nat k) mod size opts /\
  notified s'
  = notified s
    ++ map (fun j => value_at opts ((i + Z.of_nat j) mod size opts)) (seq 1 k) /\
  uncaught s' = uncaught s.
Proof.
  intros HN Hnd. pose proof (nonempty_of_size opts HN) as Hne.
  revert s i. induction k as [|k IH]; intros s i Ho Hi; cbv zeta.
  - simpl. rewrite app_nil_r, Z.add_0_r.
    pose proof (OptionSetFacts.idxSelected_range (render opts ph s)) as [H0 H1].
    specialize (H1 Hne). simpl in H1.
    rewrite Z.mod_small by lia. auto.
  - unfold presses. cbn [repeat]. rewrite CategoryFilterFacts.run_cons.
    fold (presses "ArrowDown" k). fold (presses "ArrowUp" k).
    rewrite (step_ArrowDown echo opts ph s Hne Ho). cbv zeta. rewrite Hi.
    set (i1 := (i + 1) mod size opts).
    set (s1 := {| isOpen := true; focus := focus s;
                  hostSelected := echo (hostSelected s) (value_at opts i1);
                  notified := notified s ++ [value_at opts i1];
                  uncaught := uncaught s; exiting := false |}).
    assert (Hr : 0 <= i1 < size opts) by (apply Z.mod_pos_bound; lia).
    assert (Hi1 : idxSelected (render opts ph s1) = i1)
      by (apply OptionSetFacts.idxSelected_value_at; assumption).
    destruct (IH s1 i1 eq_refl Hi1) as (Ho' & Hidx & Hnot & Hunc).
    repeat split.
    + exact Ho'.
    + rewrite Hidx. unfold i1.
      rewrite Zplus_mod_idemp_l. f_equal. lia.
    + rewrite Hnot. simpl notified. rewrite <- app_assoc. f_equal.
      simpl. f_equal.
      rewrite <- (seq_shift k 1), map_map.
      apply map_ext. intros j. unfold i1.
      rewrite Zplus_mod_idemp_l. do 2 f_equal. lia.
    + exact Hunc.
Qed.

(** Enter and Space on an open control. *)
Lemma step_close_key
  (h : host) (opts : list CategoryOption) (ph : string) (s : widget) (key : string) :
  isOpen s = true ->
  key = "Enter" \/ key = " " ->
  step h opts ph s (KeyDown key)
  = {| isOpen := false; focus := Trigger;
       hostSelected := hostSelected s;
       notified := notified s;
       uncaught := uncaught s;
       exiting := true |}.
Proof.
  intros Ho Hkey. unfold step, dispatch. rewrite Ho.
  destruct Hkey as [-> | ->];
    [rewrite CategoryFilterFacts.onKeyDown_Enter
    |rewrite CategoryFilterFacts.onKeyDown_Space];
    unfold commit; simpl; now rewrite Ho, !app_nil_r.
Qed.

(** A click on a row of an open control. *)
Lemma step_row_click
  (h : host) (opts : list CategoryOption) (ph : string) (s : widget)
  (row : nat) (opt : CategoryOption) :
  isOpen s = true ->
  nth_error opts row = Some opt ->
  step h opts ph s (ClickOption row)
  = {| isOpen := false; focus := Trigger;
       hostSelected := h (hostSelected s) (value opt);
       notified := notified s ++ [value opt];
       uncaught := uncaught s;
       exiting := true |}.
Proof.
  intros Ho Hrow. unfold step, dispatch. rewrite Ho. simpl.
  rewrite Hrow. unfold commit; simpl. now rewrite Ho, app_nil_r.
Qed.

(** A click on the trigger. *)
Lemma step_trigger
  (h : host) (opts : list CategoryOption) (ph : string) (s : widget) :
  let s' := step h opts ph s ClickTrigger in
  isOpen s' = negb (isOpen s) /\
  notified s' = notified s /\
  hostSelected s' = hostSelected s /\
  uncaught s' = uncaught s.
Proof.
  cbv zeta. unfold step, commit; simpl. now rewrite !app_nil_r.
Qed.

(** From an open state, the only event that both notifies and closes is a
    click on a row. *)
Lemma commits_by_row_click_only
  (h : host) (opts : list CategoryOption) (ph : string) (s : widget) (ev : event) :
  isOpen s = true ->
  isOpen (step h opts ph s ev) = false ->
  notified (step h opts ph s ev) <> notified s ->
  exists row, ev = ClickOption row.
Proof.
  intros Ho Hclosed Hnotified.
  destruct ev as [k | | row | | ].
  - exfalso. unfold step, dispatch, commit in Hclosed, Hnotified.
    simpl in Hclosed, Hnotified. rewrite Ho in *.
    destruct (CategoryFilterFacts.onKeyDown_notify_or_close
                (render opts ph s) k) as [E | E].
    + rewrite E, app_nil_r in Hnotified. now apply Hnotified.
    + rewrite E in Hclosed. discriminate.
  - exfalso. apply Hnotified.
    unfold step, commit; simpl. now rewrite app_nil_r.
  - now exists row.
  - exfalso. apply Hnotified.
    unfold step, dispatch, commit; rewrite Ho; simpl. now rewrite app_nil_r.
  - exfalso. unfold step, exit_complete in Hclosed.
    rewrite Ho in Hclosed. simpl in Hclosed. congruence.
Qed.

(** C1. On an OptionSet of [N >= 1] unique values, [k] presses of
    ArrowDown on an open control whose Host echoes every notification
    take the selection index from [i] to [(i + k) mod N]; the control
    stays open, nothing is thrown, and [onChange] is called exactly [k]
    times: the [j]-th call carries the value of the option at index
    [(i + j) mod N].  The sort filter, run from the same state, does the
    same on its two options: from its index [j] to [(j + k) mod 2]. *)
Theorem arrow_down_presses
  (opts : list CategoryOption) (ph : string) (lbls : SortFilter.Labels)
  (k : nat) (s : widget) (i : Z) :
  1 <= size opts ->
  unique_values opts ->
  isOpen s = true ->
  idxSelected (render opts ph s) = i ->
  (let s' := run echo opts ph s (presses "ArrowDown" k) in
   isOpen s' = true /\
   idxSelected (render opts ph s') = (i + Z.of_nat k) mod size opts /\
   notified s'
   = notified s
     ++ map (fun j => value_at opts ((i + Z.of_nat j) mod size opts)) (seq 1 k) /\
   uncaught s' = uncaught s) /\
  (let j := SortFilter.idxSelected (SortFilter.render lbls s) in
   let sorts := SortFilter.options (SortFilter.render lbls s) in
   let t := SortFilter.run echo lbls s (presses "ArrowDown" k) in
   isOpen t = true /\
   SortFilter.idxSelected (SortFilter.render lbls t) = (j + Z.of_nat k) mod 2 /\
   notified t
   = notified s
     ++ map (fun n => value_at sorts ((j + Z.of_nat n) mod 2)) (seq 1 k) /\
   uncaught t = uncaught s).
Proof.
  intros HN Hnd Ho Hi. split; [now apply run_ArrowDown_echo|].
  cbv zeta. rewrite (SortFilterFacts.run_same echo lbls "").
  apply (run_ArrowDown_echo
           [ {| value := "mostRecent"; label := SortFilter.label_mostRecent lbls |};
             {| value := "oldest"; label := SortFilter.label_oldest lbls |} ]
           "" k s).
  - vm_compute. discriminate.
  - apply SortFilterFacts.sort_values_unique.
  - exact Ho.
  - reflexivity.
Qed.

Lemma arrow_down_presses_witness :
  (let s' := run echo Sample.categories "All Categories"
               (Sample.opened "art") (presses "ArrowDown" 4) in
   isOpen s' = true /\
   idxSelected (render Sample.categories "All Categories" s') = 2 /\
   notified s' = ["music"; ""; "art"; "music"] /\
   uncaught s' = []) /\
  (let t := SortFilter.run echo SortFilter.default_labels
              (Sample.opened "art") (presses "ArrowDown" 4) in
   isOpen t = true /\
   SortFilter.idxSelected (SortFilter.render SortFilter.default_labels t) = 0 /\
   notified t = ["oldest"; "mostRecent"; "oldest"; "mostRecent"] /\
   uncaught t = []).
Proof.
  apply (arrow_down_presses Sample.categories "All Categories"
           SortFilter.default_labels 4 (Sample.opened "art") 1).
  - vm_compute. discriminate.
  - unfold unique_values. simpl.
    repeat constructor; simpl; intuition discriminate.
  - reflexivity.
  - reflexivity.
Defined.

(** C2. On the empty OptionSet an Arrow key pressed while the control is
    open calls [onChange] zero times and leaves it open, but the handler
    does not return: [(i + 1) % 0] and [(i - 1 + 0) % 0] are NaN,
    [options[NaN]] is [undefined], and reading its [value] throws a
    TypeError out of the handler. *)
Theorem arrow_on_empty_throws
  (h : host) (ph sel : string) (f : focus_target)
  (seen : list string) (errs : list JS.error) (ex : bool) :
  let s := {| isOpen := true; focus := f; hostSelected := sel;
              notified := seen; uncaught := errs; exiting := ex |} in
  let boom := JS.TypeError "Cannot read properties of undefined (reading 'value')" in
  onKeyDown (render [] ph s) true "ArrowDown" = ([PreventDefault], Throw boom) /\
  onKeyDown (render [] ph s) true "ArrowUp" = ([PreventDefault], Throw boom) /\
  step h [] ph s (KeyDown "ArrowDown")
  = {| isOpen := true; focus := f; hostSelected := sel;
       notified := seen; uncaught := errs ++ [boom]; exiting := false |} /\
  step h [] ph s (KeyDown "ArrowUp")
  = {| isOpen := true; focus := f; hostSelected := sel;
       notified := seen; uncaught := errs ++ [boom]; exiting := false |}.
Proof.
  cbv zeta. unfold step, commit; simpl.
  rewrite app_nil_r. repeat split; reflexivity.
Qed.

(** C3. From every open state, Escape and a click on the outside overlay
    both leave the control closed, call [onChange] zero times, leave the
    Host's value alone and throw nothing; Escape also returns focus to the
    trigger, the overlay click leaves focus where it was.  The state is
    arbitrary, so whatever Arrow presses came before make no difference. *)
Theorem close_without_notification
  (h : host) (opts : list CategoryOption) (ph : string) (s : widget) (ev : event) :
  isOpen s = true ->
  ev = KeyDown "Escape" \/ ev = ClickOverlay ->
  let s' := step h opts ph s ev in
  isOpen s' = false /\
  notified s' = notified s /\
  hostSelected s' = hostSelected s /\
  uncaught s' = uncaught s /\
  focus s' = match ev with KeyDown _ => Trigger | _ => focus s end.
Proof.
  intros Ho [-> | ->]; cbv zeta; unfold step, dispatch; rewrite Ho.
  - rewrite CategoryFilterFacts.onKeyDown_Escape.
    unfold commit; simpl. rewrite Ho, !app_nil_r. auto.
  - unfold commit; simpl. rewrite Ho, !app_nil_r. auto.
Qed.

Lemma close_without_notification_witness :
  let s := run echo Sample.categories "All Categories"
             (Sample.opened "") (presses "ArrowDown" 2) in
  let s' := step echo Sample.categories "All Categories" s (KeyDown "Escape") in
  isOpen s' = false /\
  notified s' = notified s /\
  hostSelected s' = hostSelected s /\
  uncaught s' = uncaught s /\
  focus s' = Trigger.
Proof.
  cbv zeta.
  apply (close_without_notification echo Sample.categories "All Categories"
           (run echo Sample.categories "All Categories"
              (Sample.opened "") (presses "ArrowDown" 2))
           (KeyDown "Escape")).
  - reflexivity.
  - left. reflexivity.
Defined.

(** C4. Enter or Space pressed while the control is open closes it and
    returns focus to the trigger; [onChange] is not called and the Host's
    value is unchanged, so the highlighted option is not selected.  More
    generally no key both notifies and closes: the only event that commits
    a selection (notifies and closes) is the click on an option row.  All
    of this holds of the category filter and of the sort filter alike. *)
Theorem enter_space_close_only
  (h : host) (opts : list CategoryOption) (ph : string)
  (lbls : SortFilter.Labels) (s : widget) (key : string) :
  isOpen s = true ->
  key = "Enter" \/ key = " " ->
  (let s' := step h opts ph s (KeyDown key) in
   (isOpen s' = false /\
    focus s' = Trigger /\
    notified s' = notified s /\
    hostSelected s' = hostSelected s /\
    uncaught s' = uncaught s) /\
   (forall ev : event,
       let t := step h opts ph s ev in
       isOpen t = false ->
       notified t <> notified s ->
       exists row, ev = ClickOption row)) /\
  (let s' := SortFilter.step h lbls s (KeyDown key) in
   (isOpen s' = false /\
    focus s' = Trigger /\
    notified s' = notified s /\
    hostSelected s' = hostSelected s /\
    uncaught s' = uncaught s) /\
   (forall ev : event,
       let t := SortFilter.step h lbls s ev in
       isOpen t = false ->
       notified t <> notified s ->
       exists row, ev = ClickOption row)).
Proof.
  intros Ho Hkey; cbv zeta. split.
  - split.
    + rewrite (step_close_key h opts ph s key Ho Hkey). simpl. auto.
    + intros ev. now apply commits_by_row_click_only.
  - split.
    + rewrite (SortFilterFacts.step_same h lbls "").
      rewrite (step_close_key h _ "" s key Ho Hkey). simpl. auto.
    + intros ev. rewrite (SortFilterFacts.step_same h lbls "").
      now apply commits_by_row_click_only.
Qed.

Lemma enter_space_close_only_witness :
  let s := Sample.opened "art" in
  (let s' := step echo Sample.categories "All Categories" s (KeyDown " ") in
   (isOpen s' = false /\
    focus s' = Trigger /\
    notified s' = notified s /\
    hostSelected s' = hostSelected s /\
    uncaught s' = uncaught s) /\
   (exists row, ClickOption 2 = ClickOption row)) /\
  (let s' := SortFilter.step echo SortFilter.default_labels s (KeyDown " ") in
   (isOpen s' = false /\
    focus s' = Trigger /\
    notified s' = notified s /\
    hostSelected s' = hostSelected s /\
    uncaught s' = uncaught s) /\
   (exists row, ClickOption 1 = ClickOption row)).
Proof.
  cbv zeta.
  destruct (enter_space_close_only echo Sample.categories "All Categories"
              SortFilter.default_labels (Sample.opened "art") " "
              eq_refl (or_intror eq_refl))
    as [[Hclose Hcommit] [Hclose' Hcommit']].
  split; split.
  - exact Hclose.
  - apply Hcommit; [reflexivity | simpl; discriminate].
  - exact Hclose'.
  - apply Hcommit'; [reflexivity | simpl; discriminate].
Defined.

(** C5. On an OptionSet of [N >= 1] unique values, ArrowUp pressed on an
    open control at index [i] calls [onChange] once, at once, with the
    value of the option at [(i - 1 + N) mod N]; the control stays open and,
    the Host echoing the value, that is the new index.  From index 0 the
    new index is [N - 1]. *)
Theorem arrow_up_wraps
  (opts : list CategoryOption) (ph : string) (s : widget) (i : Z) :
  1 <= size opts ->
  unique_values opts ->
  isOpen s = true ->
  idxSelected (render opts ph s) = i ->
  let s' := step echo opts ph s (KeyDown "ArrowUp") in
  isOpen s' = true /\
  notified s' = notified s ++ [value_at opts ((i - 1 + size opts) mod size opts)] /\
  idxSelected (render opts ph s') = (i - 1 + size opts) mod size opts /\
  uncaught s' = uncaught s /\
  (i = 0 -> idxSelected (render opts ph s') = size opts - 1).
Proof.
  intros HN Hnd Ho Hi. pose proof (nonempty_of_size opts HN) as Hne.
  cbv zeta. rewrite (step_ArrowUp echo opts ph s Hne Ho). cbv zeta.
  rewrite Hi. simpl.
  assert (Hr : 0 <= (i - 1 + size opts) mod size opts < size opts)
    by (apply Z.mod_pos_bound; lia).
  assert (Hidx : idxSelected
                   {| selected := value_at opts ((i - 1 + size opts) mod size opts);
                      options := opts; placeholder := ph |}
                 = (i - 1 + size opts) mod size opts)
    by (apply OptionSetFacts.idxSelected_value_at; assumption).
  unfold render, echo; simpl. rewrite Hidx.
  repeat split.
  intros ->. replace (0 - 1 + size opts) with (size opts - 1) by lia.
  apply Z.mod_small. lia.
Qed.

Lemma arrow_up_wraps_witness :
  let s' := step echo Sample.categories "All Categories"
              (Sample.opened "") (KeyDown "ArrowUp") in
  isOpen s' = true /\
  notified s' = [] ++ ["music"] /\
  idxSelected (render Sample.categories "All Categories" s') = 2 /\
  uncaught s' = [] /\
  idxSelected (render Sample.categories "All Categories" s') = 3 - 1.
Proof.
  assert (Hu : unique_values Sample.categories)
    by (unfold unique_values; simpl;
        repeat constructor; simpl; intuition discriminate).
  assert (HN : 1 <= size Sample.categories) by (vm_compute; discriminate).
  destruct (arrow_up_wraps Sample.categories "All Categories"
              (Sample.opened "") 0 HN Hu eq_refl eq_refl)
    as (H1 & H2 & H3 & H4 & H5).
  split; [exact H1|]. split; [exact H2|]. split; [exact H3|].
  split; [exact H4|]. apply H5. reflexivity.
Defined.

(** C6. When [selected] is the value of no option, the label shown on the
    trigger is the placeholder the caller gave and the index Arrow
    navigation starts from is 0, on every OptionSet.  On a non-empty
    OptionSet ArrowDown then notifies the option at [1 mod N], ArrowUp the
    one at [(N - 1) mod N], and no key throws.  On the empty OptionSet,
    where every [selected] is unknown, the Arrow keys do throw: an error is
    raised, which is what the control is said never to do. *)
Theorem unknown_selected_degrades (p : Props) :
  (forall o, In o (options p) -> value o <> selected p) ->
  selectedLabel p = placeholder p /\
  idxSelected p = 0 /\
  (options p <> [] ->
   notifications (trace (onKeyDown p true "ArrowDown"))
   = [value_at (options p) (1 mod size (options p))] /\
   notifications (trace (onKeyDown p true "ArrowUp"))
   = [value_at (options p) ((size (options p) - 1) mod size (options p))] /\
   forall key, outcome (onKeyDown p true key) = Normal tt) /\
  (options p = [] ->
   let boom := JS.TypeError "Cannot read properties of undefined (reading 'value')" in
   onKeyDown p true "ArrowDown" = ([PreventDefault], Throw boom) /\
   onKeyDown p true "ArrowUp" = ([PreventDefault], Throw boom)).
Proof.
  intros Hout.
  assert (Hp : forall o, In o (options p) ->
                         String.eqb (value o) (selected p) = false)
    by (intros o Ho; apply String.eqb_neq; now apply Hout).
  assert (Hi : idxSelected p = 0).
  { unfold idxSelected, JS.findIndex.
    now rewrite (JSFacts.findIndex_from_none _ _ 0 Hp). }
  split; [|split; [|split]].
  - unfold selectedLabel. now rewrite (JSFacts.find_none _ _ Hp).
  - exact Hi.
  - intros Hne. split; [|split].
    + rewrite CategoryFilterFacts.onKeyDown_ArrowDown by exact Hne.
      now rewrite Hi.
    + rewrite CategoryFilterFacts.onKeyDown_ArrowUp by exact Hne.
      rewrite Hi.
      replace (0 - 1 + size (options p)) with (size (options p) - 1) by lia.
      reflexivity.
    + intros key. now apply CategoryFilterFacts.onKeyDown_normal.
  - intros He. cbv zeta. unfold onKeyDown. cbv zeta.
    rewrite CategoryFilterFacts.max0_idxSelected, Hi, He. split; reflexivity.
Qed.

Lemma unknown_selected_degrades_witness :
  let p := {| selected := "zzz"; options := [];
              placeholder := default_placeholder |} in
  let boom := JS.TypeError "Cannot read properties of undefined (reading 'value')" in
  selectedLabel p = "All Categories" /\
  idxSelected p = 0 /\
  onKeyDown p true "ArrowDown" = ([PreventDefault], Throw boom) /\
  onKeyDown p true "ArrowUp" = ([PreventDefault], Throw boom).
Proof.
  cbv zeta.
  destruct (unknown_selected_degrades
              {| selected := "zzz"; options := [];
                 placeholder := default_placeholder |})
    as (Hl & Hi & _ & Hempty).
  - intros o [].
  - destruct (Hempty eq_refl) as [Hd Hu].
    split; [exact Hl|]. split; [exact Hi|]. split; [exact Hd | exact Hu].
Defined.

(** C7. A click on the row of [opt], rendered at index [row] of an open
    control, leaves it closed, calls [onChange] exactly once with the value
    of [opt], and returns focus to the trigger; and so does a click on a
    row of the sort filter. *)
Theorem row_click_commits
  (h : host) (opts : list CategoryOption) (ph : string)
  (lbls : SortFilter.Labels) (s : widget)
  (row : nat) (opt : CategoryOption) (srow : nat) (sopt : CategoryOption) :
  isOpen s = true ->
  nth_error opts row = Some opt ->
  nth_error (SortFilter.options (SortFilter.render lbls s)) srow = Some sopt ->
  (let s' := step h opts ph s (ClickOption row) in
   isOpen s' = false /\
   notified s' = notified s ++ [value opt] /\
   hostSelected s' = h (hostSelected s) (value opt) /\
   focus s' = Trigger /\
   uncaught s' = uncaught s) /\
  (let s' := SortFilter.step h lbls s (ClickOption srow) in
   isOpen s' = false /\
   notified s' = notified s ++ [value sopt] /\
   hostSelected s' = h (hostSelected s) (value sopt) /\
   focus s' = Trigger /\
   uncaught s' = uncaught s).
Proof.
  intros Ho Hrow Hsrow. cbv zeta. split.
  - rewrite (step_row_click h opts ph s row opt Ho Hrow). simpl. auto.
  - rewrite (SortFilterFacts.step_same h lbls "").
    rewrite (step_row_click h
               [ {| value := "mostRecent"; label := SortFilter.label_mostRecent lbls |};
                 {| value := "oldest"; label := SortFilter.label_oldest lbls |} ]
               "" s srow sopt Ho Hsrow).
    simpl. auto.
Qed.

Lemma row_click_commits_witness :
  (let s' := step echo Sample.categories "All Categories"
               (Sample.opened "") (ClickOption 1) in
   isOpen s' = false /\
   notified s' = [] ++ ["art"] /\
   hostSelected s' = "art" /\
   focus s' = Trigger /\
   uncaught s' = []) /\
  (let s' := SortFilter.step echo SortFilter.default_labels
               (Sample.opened "") (ClickOption 1) in
   isOpen s' = false /\
   notified s' = [] ++ ["oldest"] /\
   hostSelected s' = "oldest" /\
   focus s' = Trigger /\
   uncaught s' = []).
Proof.
  apply (row_click_commits echo Sample.categories "All Categories"
           SortFilter.default_labels (Sample.opened "")
           1 {| value := "art"; label := "Art" |}
           1 {| value := "oldest"; label := "Oldest" |}).
  - reflexivity.
  - reflexivity.
  - reflexivity.
Defined.

(** Closing an open control and then closing again changes nothing more. *)
Lemma close_twice
  (h : host) (opts : list CategoryOption) (ph : string) (s : widget) (e1 e2 : event) :
  In e1 [KeyDown "Escape"; ClickOverlay] ->
  In e2 [KeyDown "Escape"; ClickOverlay] ->
  step h opts ph (step h opts ph s e1) e2 = step h opts ph s e1.
Proof.
  intros H1 H2. destruct s as [o f sel seen errs ex].
  simpl in H1, H2.
  destruct H1 as [<- | [<- | []]]; destruct H2 as [<- | [<- | []]];
    destruct o; unfold step, commit; simpl; now rewrite ?app_nil_r.
Qed.

(** C8. In the closed state every key event, Escape included, and the
    overlay's close handler leave the whole state as it is: still closed,
    the same notifications, the same focus, nothing thrown. *)
Theorem close_when_closed
  (h : host) (opts : list CategoryOption) (ph : string) (s : widget) :
  isOpen s = false ->
  (forall key, step h opts ph s (KeyDown key) = s) /\
  step h opts ph s ClickOverlay = s /\
  commit h s overlay_onClick = s.
Proof.
  intros Hc. destruct s as [o f sel seen errs ex]. simpl in Hc. subst o.
  repeat split; intros; unfold step, commit; simpl; now rewrite ?app_nil_r.
Qed.

Lemma close_when_closed_witness :
  (forall key,
      step echo Sample.categories "All Categories" (mount "art") (KeyDown key)
      = mount "art") /\
  step echo Sample.categories "All Categories" (mount "art") ClickOverlay
  = mount "art" /\
  commit echo (mount "art") overlay_onClick = mount "art".
Proof.
  apply (close_when_closed echo Sample.categories "All Categories" (mount "art")).
  reflexivity.
Defined.

(** C10. A click on the trigger negates [isOpen], whatever it was: it
    opens a closed control and closes an open one, and in neither direction
    is [onChange] called or anything thrown; the trigger of the sort filter
    does the same. *)
Theorem trigger_toggles
  (h : host) (opts : list CategoryOption) (ph : string)
  (lbls : SortFilter.Labels) (s : widget) :
  (let s' := step h opts ph s ClickTrigger in
   isOpen s' = negb (isOpen s) /\
   notified s' = notified s /\
   hostSelected s' = hostSelected s /\
   uncaught s' = uncaught s) /\
  (let s' := SortFilter.step h lbls s ClickTrigger in
   isOpen s' = negb (isOpen s) /\
   notified s' = notified s /\
   hostSelected s' = hostSelected s /\
   uncaught s' = uncaught s) /\
  (let o := {| isOpen := true; focus := focus s; hostSelected := hostSelected s;
               notified := notified s; uncaught := uncaught s;
               exiting := exiting s |} in
   isOpen (step h opts ph o ClickTrigger) = false /\
   isOpen (SortFilter.step h lbls o ClickTrigger) = false).
Proof.
  split; [apply step_trigger|]. split.
  - cbv zeta. rewrite (SortFilterFacts.step_same h lbls "").
    apply step_trigger.
  - cbv zeta. split.
    + now destruct (step_trigger h opts ph
                      {| isOpen := true; focus := focus s;
                         hostSelected := hostSelected s;
                         notified := notified s; uncaught := uncaught s;
                         exiting := exiting s |}) as [-> _].
    + rewrite (SortFilterFacts.step_same h lbls "").
      now destruct (step_trigger h
                      [ {| value := "mostRecent";
                           label := SortFilter.label_mostRecent lbls |};
                        {| value := "oldest";
                           label := SortFilter.label_oldest lbls |} ] ""
                      {| isOpen := true; focus := focus s;
                         hostSelected := hostSelected s;
                         notified := notified s; uncaught := uncaught s;
                         exiting := exiting s |}) as [-> _].
Qed.

End CategoryFilterSpec.

(** ** SortFilter: the same contract on its two fixed options *)

Module SortFilterSpec.

(** ArrowDown alternates between the two sort orders. *)
Lemma sort_arrow_down (lbls : SortFilter.Labels) (k : nat) (s : widget) :
  isOpen s = true ->
  let i := SortFilter.idxSelected (SortFilter.render lbls s) in
  let s' := SortFilter.run echo lbls s (presses "ArrowDown" k) in
  isOpen s' = true /\
  SortFilter.idxSelected (SortFilter.render lbls s') = (i + Z.of_nat k) mod 2 /\
  List.length (notified s') = (List.length (notified s) + k)%nat /\
  uncaught s' = uncaught s.
Proof.
  intros Ho. cbv zeta. rewrite (SortFilterFacts.run_same echo lbls "").
  set (opts := [ {| value := "mostRecent"; label := SortFilter.label_mostRecent lbls |};
                 {| value := "oldest"; label := SortFilter.label_oldest lbls |} ]).
  assert (HN : 1 <= size opts) by (vm_compute; discriminate).
  destruct (CategoryFilterSpec.run_ArrowDown_echo opts "" k s _
              HN (SortFilterFacts.sort_values_unique lbls) Ho eq_refl)
    as (H1 & H2 & H3 & H4).
  repeat split.
  - exact H1.
  - exact H2.
  - rewrite H3, length_app, length_map, length_seq. reflexivity.
  - exact H4.
Qed.

(** The scenario of the specification: from "mostRecent", one ArrowDown
    notifies "oldest", a second one wraps to "mostRecent". *)
Example sort_scenario :
  let s0 := SortFilter.step echo SortFilter.default_labels
              (mount "mostRecent") ClickTrigger in
  let s1 := SortFilter.step echo SortFilter.default_labels s0 (KeyDown "ArrowDown") in
  let s2 := SortFilter.step echo SortFilter.default_labels s1 (KeyDown "ArrowDown") in
  isOpen s0 = true /\ focus s0 = Listbox /\
  notified s1 = ["oldest"] /\
  notified s2 = ["oldest"; "mostRecent"] /\
  uncaught s2 = [].
Proof. repeat split. Qed.

(** A value outside [SortValue] shows the first option's label, which is
    the label the fallback names as well. *)
Lemma sort_label_unknown (p : SortFilter.Props) :
  SortFilter.selected p <> "mostRecent" ->
  SortFilter.selected p <> "oldest" ->
  SortFilter.idxSelected p = 0 /\
  SortFilter.selectedLabel p = SortFilter.label_mostRecent (SortFilter.labels p).
Proof.
  intros H1 H2.
  assert (E : SortFilter.idxSelected p = 0).
  { unfold SortFilter.idxSelected, JS.findIndex, SortFilter.options,
      SortFilter.to_string.
    cbn [JS.findIndex_from value].
    rewrite (proj2 (String.eqb_neq "mostRecent" _)) by congruence.
    rewrite (proj2 (String.eqb_neq "oldest" _)) by congruence.
    reflexivity. }
  split; [exact E|].
  unfold SortFilter.selectedLabel. now rewrite E.
Qed.

End SortFilterSpec.

(** ** Forgotpassword.tsx: one request, one error kind *)

Module ForgotPasswordSpec.

Import ForgotPassword.

Lemma get_message_field (data : JS.val) :
  data <> JS.Null ->
  data <> JS.Undefined ->
  get_message data = ret (message_field data).
Proof.
  intros Hn Hu. destruct data as [| | b | z | x | items | fields];
    try congruence; try reflexivity.
  simpl. now destruct (JS.lookup "message" fields).
Qed.

(** Whatever the message field holds, what [||] leaves is truthy. *)
Lemma or_default_truthy (m : JS.val) :
  JS.truthy (JS.or m (JS.Str success_default)) = true.
Proof. unfold JS.or. destruct (JS.truthy m) eqn:E; [exact E | reflexivity]. Qed.

(** A rejected request runs the [catch] block and nothing else. *)
Lemma handle_rejected (base : string) (srv : backend) (s : form) (err : JS.error) :
  srv (String.append base "/forgot-password") (JS.Obj [("email", JS.Str (email s))])
  = Rejected err ->
  handleForgotPassword base srv s
  = ([PreventDefault; SetMessage (JS.Str ""); SetError ""; SetIsLoading true;
      Post (String.append base "/forgot-password")
        (JS.Obj [("email", JS.Str (email s))]);
      ConsoleError err; SetError generic_error; SetIsLoading false],
     Normal tt).
Proof.
  intros E. unfold handleForgotPassword, axios_post. now rewrite E.
Qed.




(** Neither the status nor the kind of the failure reaches the page. *)
Lemma failures_collapse (base : string) (s : form) (e1 e2 : JS.error) :
  submit base (Sample.failing e1) s = submit base (Sample.failing e2) s.
Proof. reflexivity. Qed.

End ForgotPasswordSpec.

(** * Further properties of the code *)

(** ** First matches, decimal indices *)

Module ArrayFacts.

Section FirstMatch.

Context {A : Type}.
Variable p : A -> bool.

(** A list with a hit has a first hit; [findIndex] returns its index and
    [find] its element. *)
Lemma first_match (l : list A) :
  (exists x, In x l /\ p x = true) ->
  exists (j : nat) (x : A),
    nth_error l j = Some x /\ p x = true /\
    (forall j' y, (j' < j)%nat -> nth_error l j' = Some y -> p y = false) /\
    (forall k, JS.findIndex_from p l k = k + Z.of_nat j) /\
    JS.find p l = Some x.
Proof.
  induction l as [|a l IH]; intros [x [Hin Hx]].
  - destruct Hin.
  - destruct (p a) eqn:Ha.
    + exists 0%nat, a. repeat split; simpl; try assumption.
      * intros j' y Hlt. lia.
      * intros k. rewrite Ha. lia.
      * unfold JS.find; simpl. now rewrite Ha.
    + assert (Hex : exists y, In y l /\ p y = true).
      { destruct Hin as [<- | Hin]; [congruence | now exists x]. }
      destruct (IH Hex) as (j & y & Hnth & Hy & Hbefore & Hfi & Hfind).
      exists (S j), y. repeat split; simpl; try assumption.
      * intros j' z Hlt Hz. destruct j' as [|j']; simpl in Hz.
        -- congruence.
        -- apply (Hbefore j' z); [lia | exact Hz].
      * intros k. rewrite Ha, Hfi. lia.
      * unfold JS.find in *; simpl. now rewrite Ha.
Qed.

End FirstMatch.

Lemma map_indexed_from_length {A B : Type} (f : A -> Z -> B) (l : list A) (k : Z) :
  List.length (JS.map_indexed_from f l k) = List.length l.
Proof.
  revert k; induction l as [|x l IH]; intros k; simpl; [reflexivity|].
  now rewrite IH.
Qed.

Lemma map_indexed_from_nth {A B : Type} (f : A -> Z -> B) (l : list A) (k : Z)
  (j : nat) :
  nth_error (JS.map_indexed_from f l k) j
  = option_map (fun x => f x (k + Z.of_nat j)) (nth_error l j).
Proof.
  revert k j; induction l as [|x l IH]; intros k j.
  - now destruct j.
  - destruct j as [|j]; simpl.
    + do 2 f_equal. lia.
    + rewrite IH. destruct (nth_error l j); simpl; [|reflexivity].
      do 2 f_equal. lia.
Qed.

Lemma map_indexed_from_In {A B : Type} (f : A -> Z -> B) (l : list A) (k : Z)
  (y : B) :
  In y (JS.map_indexed_from f l k) ->
  exists (j : nat) (x : A), nth_error l j = Some x /\ y = f x (k + Z.of_nat j).
Proof.
  intros Hin. apply In_nth_error in Hin. destruct Hin as [j Hj].
  rewrite map_indexed_from_nth in Hj.
  destruct (nth_error l j) as [x|] eqn:E; [|discriminate].
  exists j, x. split; [exact E|]. simpl in Hj. congruence.
Qed.

(** Decimal printing tells integers apart. *)
Lemma number_to_string_inj (a b : Z) :
  JS.number_to_string a = JS.number_to_string b -> a = b.
Proof.
  unfold JS.number_to_string. intros H.
  apply DecimalZ.to_int_inj.
  assert (Hnn : forall z, Z.to_int z <> Decimal.Pos Decimal.Nil /\
                          Z.to_int z <> Decimal.Neg Decimal.Nil).
  { intros [|q|q]; simpl; split; try discriminate;
      intros [= E]; now apply DecimalPos.Unsigned.to_uint_nonnil in E. }
  assert (E : Some (Z.to_int a) = Some (Z.to_int b)).
  { rewrite <- (NilZero.isi (Z.to_int a)) by apply Hnn.
    rewrite <- (NilZero.isi (Z.to_int b)) by apply Hnn.
    now rewrite H. }
  now injection E.
Qed.

Lemma append_inj_r (pre a b : string) :
  String.append pre a = String.append pre b -> a = b.
Proof.
  induction pre as [|c pre IH]; simpl; intros H; [exact H|].
  injection H as H. now apply IH.
Qed.

End ArrayFacts.

(** ** Navigation beyond single presses *)

Module NavigationSpec.

Import CategoryFilter.

(** A selected value that occurs in the OptionSet resolves to its first
    occurrence, for the index and for the label alike. *)
Lemma resolve_selected (p : Props) :
  In (selected p) (map value (options p)) ->
  exists (j : nat) (o : CategoryOption),
    nth_error (options p) j = Some o /\
    value o = selected p /\
    idxSelected p = Z.of_nat j /\
    (forall j' o', (j' < j)%nat -> nth_error (options p) j' = Some o' ->
                   value o' <> selected p) /\
    JS.find (fun o' => String.eqb (value o') (selected p)) (options p) = Some o.
Proof.
  intros Hin. apply in_map_iff in Hin. destruct Hin as [x [Hx Hin]].
  destruct (ArrayFacts.first_match
              (fun o' => String.eqb (value o') (selected p)) (options p))
    as (j & o & Hnth & Ho & Hbefore & Hfi & Hfind).
  { exists x. split; [exact Hin | now apply String.eqb_eq]. }
  exists j, o. repeat split; try assumption.
  - now apply String.eqb_eq.
  - unfold idxSelected, JS.findIndex, JS.Math_max. rewrite Hfi. lia.
  - intros j' o' Hlt Hn. apply String.eqb_neq. now apply (Hbefore j' o').
Qed.

Lemma value_at_idxSelected (p : Props) :
  In (selected p) (map value (options p)) ->
  value_at (options p) (idxSelected p) = selected p.
Proof.
  intros Hin. destruct (resolve_selected p Hin) as (j & o & Hnth & Ho & Hi & _).
  rewrite Hi, (OptionSetFacts.value_at_nth _ _ _ Hnth). exact Ho.
Qed.

(** Anchoring.  Under a Host that ignores notifications, [k] presses of
    ArrowDown on an open control over a non-empty OptionSet call [onChange]
    [k] times with one and the same value, the one after the Host's
    unchanged selection; the index never advances. *)
Theorem deaf_host_anchors
  (opts : list CategoryOption) (ph : string) (k : nat) (s : widget) :
  opts <> [] ->
  isOpen s = true ->
  let v := value_at opts ((idxSelected (render opts ph s) + 1) mod size opts) in
  let s' := run deaf opts ph s (presses "ArrowDown" k) in
  isOpen s' = true /\
  hostSelected s' = hostSelected s /\
  notified s' = notified s ++ repeat v k /\
  uncaught s' = uncaught s.
Proof.
  intros Hne. revert s. induction k as [|k IH]; intros s Ho; cbv zeta.
  - simpl. now rewrite app_nil_r.
  - unfold presses. cbn [repeat]. rewrite CategoryFilterFacts.run_cons.
    fold (presses "ArrowDown" k). fold (presses "ArrowUp" k).
    rewrite (CategoryFilterSpec.step_ArrowDown deaf opts ph s Hne Ho). cbv zeta.
    set (v := value_at opts ((idxSelected (render opts ph s) + 1) mod size opts)).
    set (s1 := {| isOpen := true; focus := focus s;
                  hostSelected := deaf (hostSelected s) v;
                  notified := notified s ++ [v];
                  uncaught := uncaught s; exiting := false |}).
    destruct (IH s1 eq_refl) as (H1 & H2 & H3 & H4).
    repeat split.
    + exact H1.
    + rewrite H2. reflexivity.
    + rewrite H3. simpl notified. rewrite <- app_assoc. reflexivity.
    + rewrite H4. reflexivity.
Qed.

Lemma deaf_host_anchors_witness :
  let s' := run deaf Sample.categories "All Categories"
              (Sample.opened "art") (presses "ArrowDown" 3) in
  isOpen s' = true /\
  hostSelected s' = "art" /\
  notified s' = [] ++ repeat "music" 3 /\
  uncaught s' = [].
Proof.
  apply (deaf_host_anchors Sample.categories "All Categories" 3
           (Sample.opened "art")).
  - discriminate.
  - reflexivity.
Defined.

(** Repeated ArrowUp.  On an OptionSet of [N >= 1] unique values, [k]
    presses of ArrowUp under an echoing Host take the index from [i] to
    [(i - k) mod N]; the [j]-th of the [k] notifications carries the value
    at [(i - j) mod N]. *)
Theorem arrow_up_presses
  (opts : list CategoryOption) (ph : string) (k : nat) (s : widget) (i : Z) :
  1 <= size opts ->
  unique_values opts ->
  isOpen s = true ->
  idxSelected (render opts ph s) = i ->
  let s' := run echo opts ph s (presses "ArrowUp" k) in
  isOpen s' = true /\
  idxSelected (render opts ph s') = (i - Z.of_nat k) mod size opts /\
  notified s'
  = notified s
    ++ map (fun j => value_at opts ((i - Z.of_nat j) mod size opts)) (seq 1 k) /\
  uncaught s' = uncaught s.
Proof.
  intros HN Hnd.
  pose proof (CategoryFilterSpec.nonempty_of_size opts HN) as Hne.
  revert s i. induction k as [|k IH]; intros s i Ho Hi; cbv zeta.
  - simpl. rewrite app_nil_r, Z.sub_0_r.
    pose proof (OptionSetFacts.idxSelected_range (render opts ph s)) as [H0 H1].
    specialize (H1 Hne). simpl in H1.
    rewrite Z.mod_small by lia. auto.
  - unfold presses. cbn [repeat]. rewrite CategoryFilterFacts.run_cons.
    fold (presses "ArrowDown" k). fold (presses "ArrowUp" k).
    rewrite (CategoryFilterSpec.step_ArrowUp echo opts ph s Hne Ho). cbv zeta.
    rewrite Hi.
    assert (Hi1eq : (i - 1 + size opts) mod size opts = (i - 1) mod size opts).
    { rewrite <- Zplus_mod_idemp_r, Z_mod_same_full, Z.add_0_r. reflexivity. }
    rewrite Hi1eq.
    set (i1 := (i - 1) mod size opts).
    set (s1 := {| isOpen := true; focus := focus s;
                  hostSelected := echo (hostSelected s) (value_at opts i1);
                  notified := notified s ++ [value_at opts i1];
                  uncaught := uncaught s; exiting := false |}).
    assert (Hr : 0 <= i1 < size opts) by (apply Z.mod_pos_bound; lia).
    assert (Hi1 : idxSelected (render opts ph s1) = i1)
      by (apply OptionSetFacts.idxSelected_value_at; assumption).
    destruct (IH s1 i1 eq_refl Hi1) as (Ho' & Hidx & Hnot & Hunc).
    repeat split.
    + exact Ho'.
    + rewrite Hidx. unfold i1.
      rewrite Zminus_mod_idemp_l. f_equal. lia.
    + rewrite Hnot. simpl notified. rewrite <- app_assoc. f_equal.
      simpl. f_equal.
      rewrite <- (seq_shift k 1), map_map.
      apply map_ext. intros j. unfold i1.
      rewrite Zminus_mod_idemp_l. do 2 f_equal. lia.
    + exact Hunc.
Qed.

Lemma arrow_up_presses_witness :
  let s' := run echo Sample.categories "All Categories"
              (Sample.opened "art") (presses "ArrowUp" 4) in
  isOpen s' = true /\
  idxSelected (render Sample.categories "All Categories" s') = 0 /\
  notified s' = [""; "music"; "art"; ""] /\
  uncaught s' = [].
Proof.
  apply (arrow_up_presses Sample.categories "All Categories" 4
           (Sample.opened "art") 1).
  - vm_compute. discriminate.
  - unfold unique_values. simpl.
    repeat constructor; simpl; intuition discriminate.
  - reflexivity.
  - reflexivity.
Defined.

(** Round trip.  On an OptionSet of [N >= 1] unique values, with the
    Host's value among them, ArrowDown followed by ArrowUp, and ArrowUp
    followed by ArrowDown, both call [onChange] twice and leave the Host
    with the value it had; the second call carries that value. *)
Theorem arrows_round_trip
  (opts : list CategoryOption) (ph : string) (s : widget) :
  1 <= size opts ->
  unique_values opts ->
  isOpen s = true ->
  In (hostSelected s) (map value opts) ->
  let i := idxSelected (render opts ph s) in
  let d := run echo opts ph s [KeyDown "ArrowDown"; KeyDown "ArrowUp"] in
  let u := run echo opts ph s [KeyDown "ArrowUp"; KeyDown "ArrowDown"] in
  (isOpen d = true /\
   hostSelected d = hostSelected s /\
   notified d
   = notified s ++ [value_at opts ((i + 1) mod size opts); hostSelected s]) /\
  (isOpen u = true /\
   hostSelected u = hostSelected s /\
   notified u
   = notified s ++ [value_at opts ((i - 1 + size opts) mod size opts);
                    hostSelected s]).
Proof.
  intros HN Hnd Ho Hin.
  pose proof (CategoryFilterSpec.nonempty_of_size opts HN) as Hne.
  pose proof (OptionSetFacts.idxSelected_range (render opts ph s)) as [H0 H1].
  specialize (H1 Hne). simpl in H1.
  pose proof (value_at_idxSelected (render opts ph s) Hin) as Hback.
  simpl in Hback. cbv zeta.
  rewrite !CategoryFilterFacts.run_cons, !CategoryFilterFacts.run_nil.
  set (i := idxSelected (render opts ph s)) in *.
  assert (Hdu : ((i + 1) mod size opts - 1 + size opts) mod size opts = i).
  { replace ((i + 1) mod size opts - 1 + size opts)
      with ((i + 1) mod size opts + (size opts - 1)) by lia.
    rewrite Zplus_mod_idemp_l.
    replace (i + 1 + (size opts - 1)) with (i + 1 * size opts) by lia.
    rewrite Z_mod_plus_full, Z.mod_small by lia. reflexivity. }
  assert (Hud : ((i - 1 + size opts) mod size opts + 1) mod size opts = i).
  { rewrite Zplus_mod_idemp_l.
    replace (i - 1 + size opts + 1) with (i + 1 * size opts) by lia.
    rewrite Z_mod_plus_full, Z.mod_small by lia. reflexivity. }
  split.
  - rewrite (CategoryFilterSpec.step_ArrowDown echo opts ph s Hne Ho). cbv zeta.
    fold i.
    set (s1 := {| isOpen := true; focus := focus s;
                  hostSelected := echo (hostSelected s)
                                    (value_at opts ((i + 1) mod size opts));
                  notified := notified s ++ [value_at opts ((i + 1) mod size opts)];
                  uncaught := uncaught s; exiting := false |}).
    assert (Hi1 : idxSelected (render opts ph s1) = (i + 1) mod size opts).
    { apply (OptionSetFacts.idxSelected_value_at opts ph _ Hnd).
      apply Z.mod_pos_bound; lia. }
    rewrite (CategoryFilterSpec.step_ArrowUp echo opts ph s1 Hne eq_refl).
    cbv zeta. rewrite Hi1, Hdu, Hback. unfold echo, s1. simpl.
    rewrite <- app_assoc. auto.
  - rewrite (CategoryFilterSpec.step_ArrowUp echo opts ph s Hne Ho). cbv zeta.
    fold i.
    set (s1 := {| isOpen := true; focus := focus s;
                  hostSelected := echo (hostSelected s)
                                    (value_at opts ((i - 1 + size opts) mod size opts));
                  notified := notified s
                              ++ [value_at opts ((i - 1 + size opts) mod size opts)];
                  uncaught := uncaught s; exiting := false |}).
    assert (Hi1 : idxSelected (render opts ph s1) = (i - 1 + size opts) mod size opts).
    { apply (OptionSetFacts.idxSelected_value_at opts ph _ Hnd).
      apply Z.mod_pos_bound; lia. }
    rewrite (CategoryFilterSpec.step_ArrowDown echo opts ph s1 Hne eq_refl).
    cbv zeta. rewrite Hi1, Hud, Hback. unfold echo, s1. simpl.
    rewrite <- app_assoc. auto.
Qed.

Lemma arrows_round_trip_witness :
  let s := Sample.opened "music" in
  let d := run echo Sample.categories "All Categories" s
             [KeyDown "ArrowDown"; KeyDown "ArrowUp"] in
  let u := run echo Sample.categories "All Categories" s
             [KeyDown "ArrowUp"; KeyDown "ArrowDown"] in
  (isOpen d = true /\ hostSelected d = "music" /\
   notified d = [] ++ [""; "music"]) /\
  (isOpen u = true /\ hostSelected u = "music" /\
   notified u = [] ++ ["art"; "music"]).
Proof.
  apply (arrows_round_trip Sample.categories "All Categories"
           (Sample.opened "music")).
  - vm_compute. discriminate.
  - unfold unique_values. simpl.
    repeat constructor; simpl; intuition discriminate.
  - reflexivity.
  - simpl. auto.
Defined.

(** Reading a list from position [a + 1] round its end visits every
    position once. *)
Lemma rotation (vals : list string) (a : nat) :
  (a < List.length vals)%nat ->
  map (fun j => nth (Z.to_nat ((Z.of_nat a + Z.of_nat j)
                                 mod Z.of_nat (List.length vals))) vals "")
      (seq 1 (List.length vals))
  = skipn (S a) vals ++ firstn (S a) vals.
Proof.
  intros Ha. set (n := List.length vals) in *.
  apply (nth_ext _ _ "" "").
  - rewrite length_map, length_seq, length_app, length_skipn, length_firstn.
    fold n. lia.
  - intros t Ht. rewrite length_map, length_seq in Ht.
    set (f := fun j : nat =>
                nth (Z.to_nat ((Z.of_nat a + Z.of_nat j) mod Z.of_nat n)) vals "").
    rewrite (nth_indep _ "" (f 0%nat)) by (now rewrite length_map, length_seq).
    rewrite map_nth, seq_nth by exact Ht. unfold f.
    replace (Z.of_nat a + Z.of_nat (1 + t)) with (Z.of_nat (a + 1 + t)) by lia.
    rewrite <- Nat2Z.inj_mod, Nat2Z.id.
    destruct (Nat.lt_ge_cases t (n - S a)) as [Hlt | Hge].
    + rewrite app_nth1 by (rewrite length_skipn; fold n; lia).
      rewrite nth_skipn, Nat.mod_small by lia. f_equal. lia.
    + rewrite app_nth2 by (rewrite length_skipn; fold n; lia).
      rewrite length_skipn. fold n. rewrite nth_firstn.
      destruct (Nat.ltb_spec (t - (n - S a)) (S a)); [|lia].
      f_equal.
      replace (a + 1 + t)%nat with ((t - (n - S a)) + 1 * n)%nat by lia.
      rewrite Nat.Div0.mod_add. apply Nat.mod_small. lia.
Qed.

(** Full cycle.  On an OptionSet of [N >= 1] unique values, [N] presses
    of ArrowDown under an echoing Host bring the index back to where it
    was, and the [N] notifications are the option values read from the
    position after the start round to the start: every value once. *)
Theorem arrow_down_full_cycle
  (opts : list CategoryOption) (ph : string) (s : widget) :
  1 <= size opts ->
  unique_values opts ->
  isOpen s = true ->
  let i := idxSelected (render opts ph s) in
  let s' := run echo opts ph s (presses "ArrowDown" (List.length opts)) in
  let visited := skipn (S (Z.to_nat i)) (map value opts)
                 ++ firstn (S (Z.to_nat i)) (map value opts) in
  idxSelected (render opts ph s') = i /\
  notified s' = notified s ++ visited /\
  Permutation visited (map value opts).
Proof.
  intros HN Hnd Ho. cbv zeta.
  pose proof (CategoryFilterSpec.nonempty_of_size opts HN) as Hne.
  pose proof (OptionSetFacts.idxSelected_range (render opts ph s)) as [H0 H1].
  specialize (H1 Hne). simpl in H1.
  destruct (CategoryFilterSpec.run_ArrowDown_echo opts ph (List.length opts) s _
              HN Hnd Ho eq_refl) as (_ & Hidx & Hnot & _).
  set (i := idxSelected (render opts ph s)) in *.
  repeat split.
  - rewrite Hidx. fold (size opts).
    replace (i + size opts) with (i + 1 * size opts) by lia.
    rewrite Z_mod_plus_full. apply Z.mod_small. lia.
  - rewrite Hnot. f_equal.
    rewrite <- (rotation (map value opts) (Z.to_nat i))
      by (rewrite length_map; unfold size in H1; lia).
    rewrite length_map. apply map_ext. intros j.
    unfold value_at, size. rewrite Z2Nat.id by lia. reflexivity.
  - rewrite Permutation_app_comm, firstn_skipn. apply Permutation_refl.
Qed.

Lemma arrow_down_full_cycle_witness :
  let s := Sample.opened "art" in
  let s' := run echo Sample.categories "All Categories" s (presses "ArrowDown" 3) in
  idxSelected (render Sample.categories "All Categories" s') = 1 /\
  notified s' = [] ++ (["music"] ++ [""; "art"]) /\
  Permutation (["music"] ++ [""; "art"]) [""; "art"; "music"].
Proof.
  apply (arrow_down_full_cycle Sample.categories "All Categories"
           (Sample.opened "art")).
  - vm_compute. discriminate.
  - unfold unique_values. simpl.
    repeat constructor; simpl; intuition discriminate.
  - reflexivity.
Defined.

End NavigationSpec.

(** ** What holds along every sequence of events *)

Module InvariantSpec.

Import CategoryFilter.

(** The keys the handler tests are pairwise distinct, so an open control
    runs exactly one of five behaviours. *)
Lemma onKeyDown_cases (p : Props) (key : string) :
  let n := size (options p) in
  let i := idxSelected p in
  let arrow target :=
    match JS.index (options p) target with
    | Some o => ([PreventDefault; OnChange (value o)], Normal tt)
    | None =>
        ([PreventDefault],
         Throw (JS.TypeError "Cannot read properties of undefined (reading 'value')"))
    end in
  (key = "Escape" /\
   onKeyDown p true key = ([SetIsOpen false; FocusTrigger], Normal tt)) \/
  ((key = "Enter" \/ key = " ") /\
   onKeyDown p true key
   = ([PreventDefault; SetIsOpen false; FocusTrigger], Normal tt)) \/
  (key = "ArrowDown" /\ onKeyDown p true key = arrow (JS.rem (i + 1) n)) \/
  (key = "ArrowUp" /\ onKeyDown p true key = arrow (JS.rem (i - 1 + n) n)) \/
  onKeyDown p true key = ret tt.
Proof.
  cbv zeta. unfold onKeyDown. cbv zeta.
  rewrite CategoryFilterFacts.max0_idxSelected. fold (size (options p)).
  cbn [negb].
  destruct (String.eqb_spec key "Escape") as [->|_]; [left; now split|].
  destruct (String.eqb_spec key "Enter") as [->|_];
    [right; left; split; [now left | reflexivity]|].
  destruct (String.eqb_spec key " ") as [->|_];
    [right; left; split; [now right | reflexivity]|].
  destruct (String.eqb_spec key "ArrowDown") as [->|_].
  { right; right; left. split; [reflexivity|].
    CategoryFilterFacts.run_handler.
    destruct (JS.index (options p) _); reflexivity. }
  destruct (String.eqb_spec key "ArrowUp") as [->|_].
  { right; right; right; left. split; [reflexivity|].
    CategoryFilterFacts.run_handler.
    destruct (JS.index (options p) _); reflexivity. }
  right; right; right; right. reflexivity.
Qed.

Lemma index_In {A : Type} (l : list A) (x : JS.number) (a : A) :
  JS.index l x = Some a -> In a l.
Proof.
  destruct x as [z|]; simpl; [|discriminate].
  destruct (z <? 0); [discriminate|]. apply nth_error_In.
Qed.

(** Whatever the event and the state, a handler only ever notifies values
    of the OptionSet. *)
Lemma dispatch_notifies_values
  (p : Props) (o ex : bool) (ev : event) (v : string) :
  In v (notifications (trace (dispatch p o ex ev))) ->
  In v (map value (options p)).
Proof.
  destruct ev as [key | | row | | ]; simpl.
  - destruct o; [|intros []].
    destruct (onKeyDown_cases p key)
      as [[_ E] | [[_ E] | [[_ E] | [[_ E] | E]]]]; rewrite E; clear E;
      try (intros []);
      match goal with
      | |- context [JS.index ?l ?x] =>
          destruct (JS.index l x) as [a|] eqn:Hix; simpl;
          [intros [<- | []]; apply in_map; now apply (index_In _ _ _ Hix)
          |intros []]
      end.
  - intros [].
  - destruct (o || ex); [|intros []].
    destruct (nth_error (options p) row) as [a|] eqn:Hrow; simpl.
    + intros [<- | []]. apply in_map. now apply (nth_error_In _ _ Hrow).
    + intros [].
  - destruct o; intros [].
  - intros [].
Qed.

(** What a step adds to the notifications and to the errors is what the
    handler it ran notified and threw. *)
Lemma step_notified
  (h : host) (opts : list CategoryOption) (ph : string) (s : widget) (ev : event) :
  notified (step h opts ph s ev)
  = notified s
    ++ notifications (trace (dispatch (render opts ph s) (isOpen s) (exiting s) ev)).
Proof.
  destruct ev; try reflexivity.
  unfold step, exit_complete. simpl. rewrite app_nil_r.
  now destruct (negb (isOpen s) && exiting s).
Qed.

Lemma step_uncaught
  (h : host) (opts : list CategoryOption) (ph : string) (s : widget) (ev : event) :
  uncaught (step h opts ph s ev)
  = uncaught s
    ++ thrown (outcome (dispatch (render opts ph s) (isOpen s) (exiting s) ev)).
Proof.
  destruct ev; try reflexivity.
  unfold step, exit_complete. simpl. rewrite app_nil_r.
  now destruct (negb (isOpen s) && exiting s).
Qed.

Lemma run_notifies_values
  (h : host) (opts : list CategoryOption) (ph : string)
  (evs : list event) (s : widget) :
  Forall (fun v => In v (map value opts)) (notified s) ->
  Forall (fun v => In v (map value opts)) (notified (run h opts ph s evs)).
Proof.
  revert s. induction evs as [|ev evs IH]; intros s Hs; [exact Hs|].
  rewrite CategoryFilterFacts.run_cons. apply IH.
  rewrite step_notified. apply Forall_app. split; [exact Hs|].
  apply Forall_forall. intros v Hv.
  now apply (dispatch_notifies_values (render opts ph s) (isOpen s) (exiting s) ev v).
Qed.

(** Values.  Over any OptionSet, any Host and any sequence of events,
    [onChange] is only ever called with the value of an option: if that
    held of the calls so far, it holds of all calls after the run. *)
Theorem notified_are_option_values
  (h : host) (opts : list CategoryOption) (ph : string)
  (evs : list event) (s : widget) :
  Forall (fun v => In v (map value opts)) (notified s) ->
  Forall (fun v => In v (map value opts)) (notified (run h opts ph s evs)).
Proof. apply run_notifies_values. Qed.

Lemma notified_are_option_values_witness :
  Forall (fun v => In v (map value Sample.categories))
    (notified (run deaf Sample.categories "All Categories" (mount "zzz")
                 [ClickTrigger; KeyDown "ArrowUp"; ClickOption 1; ClickOption 7])).
Proof.
  apply (notified_are_option_values deaf Sample.categories "All Categories").
  constructor.
Defined.

Lemma run_never_throws
  (h : host) (opts : list CategoryOption) (ph : string)
  (evs : list event) (s : widget) :
  opts <> [] ->
  uncaught (run h opts ph s evs) = uncaught s.
Proof.
  intros Hne. revert s. induction evs as [|ev evs IH]; intros s; [reflexivity|].
  rewrite CategoryFilterFacts.run_cons, IH, step_uncaught.
  assert (E : outcome (dispatch (render opts ph s) (isOpen s) (exiting s) ev)
              = Normal tt).
  { destruct ev as [key | | row | | ]; simpl.
    - now apply CategoryFilterFacts.onKeyDown_normal.
    - reflexivity.
    - destruct (isOpen s || exiting s); [|reflexivity].
      now destruct (nth_error opts row).
    - now destruct (isOpen s).
    - reflexivity. }
  rewrite E. simpl. apply app_nil_r.
Qed.

(** No throw.  Over a non-empty OptionSet no sequence of events, under any
    Host and from any state, makes a handler throw. *)
Theorem nonempty_never_throws
  (h : host) (opts : list CategoryOption) (ph : string)
  (evs : list event) (s : widget) :
  opts <> [] ->
  uncaught (run h opts ph s evs) = uncaught s.
Proof. apply run_never_throws. Qed.

Lemma nonempty_never_throws_witness :
  uncaught (run echo Sample.sort_options "All Categories" (mount "zzz")
              [ClickTrigger; KeyDown "ArrowUp"; KeyDown "Tab"; ClickOption 5;
               KeyDown "ArrowDown"; KeyDown "Enter"; KeyDown "ArrowDown"])
  = uncaught (mount "zzz").
Proof.
  apply (nonempty_never_throws echo Sample.sort_options "All Categories").
  discriminate.
Defined.

(** Closed, and the late click.  Once a closed control's listbox has left
    the document, every sequence of events without a click on the trigger
    leaves the whole state as it was.  While the listbox is still animating
    out, though, a click on one of its rows still runs the row's handler:
    [onChange] is called with that row's value on a closed control, which
    stays closed, and focus goes to the trigger. *)
Theorem closed_is_inert
  (h : host) (opts : list CategoryOption) (ph : string)
  (evs : list event) (s : widget) (row : nat) (opt : CategoryOption) :
  isOpen s = false ->
  (exiting s = false ->
   Forall (fun ev => ev <> ClickTrigger) evs ->
   run h opts ph s evs = s) /\
  (exiting s = true ->
   nth_error opts row = Some opt ->
   step h opts ph s (ClickOption row)
   = {| isOpen := false; focus := Trigger;
        hostSelected := h (hostSelected s) (value opt);
        notified := notified s ++ [value opt];
        uncaught := uncaught s;
        exiting := true |}).
Proof.
  intros Hc. split.
  - intros Hx Hevs. induction Hevs as [|ev evs Hev _ IH]; [reflexivity|].
    rewrite CategoryFilterFacts.run_cons.
    assert (E : step h opts ph s ev = s).
    { destruct s as [o f sel seen errs ex]. simpl in Hc, Hx. subst o ex.
      destruct ev; [| congruence | | |];
        unfold step, commit, exit_complete; simpl; now rewrite ?app_nil_r. }
    rewrite E. exact IH.
  - intros Hx Hrow. unfold step, dispatch. rewrite Hc, Hx. simpl. rewrite Hrow.
    unfold commit; simpl. now rewrite Hc, Hx, app_nil_r.
Qed.

Lemma closed_is_inert_witness :
  let closed := run echo Sample.categories "All Categories" (Sample.opened "art")
                  [KeyDown "Escape"] in
  run echo Sample.categories "All Categories" (mount "art")
    [KeyDown "ArrowDown"; ClickOption 2; KeyDown "Enter"; ClickOverlay; ExitComplete]
  = mount "art" /\
  isOpen closed = false /\
  notified (step echo Sample.categories "All Categories" closed (ClickOption 2))
  = ["music"].
Proof.
  cbv zeta. split; [|split].
  - apply (closed_is_inert echo Sample.categories "All Categories"
             [KeyDown "ArrowDown"; ClickOption 2; KeyDown "Enter"; ClickOverlay;
              ExitComplete]
             (mount "art") 2 {| value := "music"; label := "Music" |}).
    + reflexivity.
    + reflexivity.
    + repeat constructor; discriminate.
  - reflexivity.
  - destruct (closed_is_inert echo Sample.categories "All Categories" []
                (run echo Sample.categories "All Categories" (Sample.opened "art")
                   [KeyDown "Escape"])
                2 {| value := "music"; label := "Music" |} eq_refl)
      as [_ Hlate].
    rewrite (Hlate eq_refl eq_refl). reflexivity.
Defined.





(** Focus on the list.  The list container gains focus only through the
    effect that follows opening: if focus was not on the list before an
    event and is on it afterwards, the control was closed, the event was a
    click on the trigger, and the control is now open. *)
Theorem list_focus_only_on_open
  (h : host) (opts : list CategoryOption) (ph : string) (s : widget) (ev : event) :
  focus s <> Listbox ->
  focus (step h opts ph s ev) = Listbox ->
  isOpen s = false /\ ev = ClickTrigger /\ isOpen (step h opts ph s ev) = true.
Proof.
  intros Hf.
  destruct ev as [key | | row | | ].
  - unfold step, commit. simpl isOpen. simpl focus.
    destruct (isOpen s) eqn:Ho; [|simpl; contradiction].
    simpl dispatch.
    destruct (onKeyDown_cases (render opts ph s) key)
      as [[_ E] | [[_ E] | [[_ E] | [[_ E] | E]]]]; rewrite E; clear E;
      simpl; try discriminate; try contradiction;
      destruct (JS.index _ _); simpl; contradiction.
  - unfold step, commit. simpl.
    destruct (isOpen s); simpl; [contradiction | auto].
  - unfold step, commit. simpl isOpen. simpl focus. simpl dispatch.
    destruct (isOpen s || exiting s);
      [destruct (nth_error _ row); simpl|simpl];
      destruct (isOpen s); simpl; try discriminate; contradiction.
  - unfold step, commit. simpl.
    destruct (isOpen s); simpl; contradiction.
  - unfold step, exit_complete.
    destruct (negb (isOpen s) && exiting s); simpl; [|contradiction].
    destruct (focus s); try discriminate; contradiction.
Qed.

Lemma list_focus_only_on_open_witness :
  isOpen (mount "art") = false /\ ClickTrigger = ClickTrigger /\
  isOpen (step echo Sample.categories "All Categories" (mount "art") ClickTrigger)
  = true.
Proof.
  apply (list_focus_only_on_open echo Sample.categories "All Categories"
           (mount "art") ClickTrigger).
  - discriminate.
  - reflexivity.
Defined.

End InvariantSpec.

(** ** Labels, indices and repeated values *)

Module ResolutionSpec.

Import CategoryFilter.

Lemma first_occurrence (p : Props) :
  In (selected p) (map value (options p)) ->
  exists o : CategoryOption,
    JS.index (options p) (JS.Int (idxSelected p)) = Some o /\
    value o = selected p /\
    selectedLabel p
    = (if JS.truthy_string (label o) then label o else placeholder p) /\
    (forall z, 0 <= z < idxSelected p -> value_at (options p) z <> selected p).
Proof.
  intros Hin.
  destruct (NavigationSpec.resolve_selected p Hin)
    as (j & o & Hnth & Ho & Hi & Hbefore & Hfind).
  exists o. repeat split.
  - rewrite Hi. unfold JS.index.
    destruct (Z.ltb_spec (Z.of_nat j) 0); [lia|]. now rewrite Nat2Z.id.
  - exact Ho.
  - unfold selectedLabel. now rewrite Hfind.
  - intros z Hz Heq. rewrite Hi in Hz.
    assert (Hlt : (Z.to_nat z < j)%nat) by lia.
    assert (Hlen : (j < List.length (options p))%nat)
      by (apply nth_error_Some; congruence).
    destruct (nth_error (options p) (Z.to_nat z)) as [o'|] eqn:E.
    + apply (Hbefore _ o' Hlt E).
      rewrite <- (OptionSetFacts.value_at_nth _ _ _ E), Z2Nat.id by lia.
      exact Heq.
    + apply nth_error_None in E. lia.
Qed.

(** Label and index agree.  When [selected] occurs among the values, the
    index and the label are taken from the same option, the first one with
    that value; the label shown is that option's label unless it is empty,
    in which case the placeholder is shown. *)
Theorem label_follows_index (p : Props) :
  In (selected p) (map value (options p)) ->
  exists o : CategoryOption,
    JS.index (options p) (JS.Int (idxSelected p)) = Some o /\
    value o = selected p /\
    selectedLabel p
    = (if JS.truthy_string (label o) then label o else placeholder p) /\
    (forall z, 0 <= z < idxSelected p -> value_at (options p) z <> selected p).
Proof. apply first_occurrence. Qed.

Lemma label_follows_index_witness :
  exists o : CategoryOption,
    JS.index Sample.repeated (JS.Int 3) = Some o /\
    value o = "c" /\
    selectedLabel {| selected := "c"; options := Sample.repeated;
                     placeholder := "All Categories" |}
    = "All Categories" /\
    (forall z, 0 <= z < 3 -> value_at Sample.repeated z <> "c").
Proof.
  destruct (label_follows_index
              {| selected := "c"; options := Sample.repeated;
                 placeholder := "All Categories" |})
    as (o & Hix & Hv & Hl & Hfirst).
  - simpl. auto.
  - exists o. split; [exact Hix|]. split; [exact Hv|]. split; [|exact Hfirst].
    rewrite Hl. simpl in Hix. injection Hix as <-. reflexivity.
Defined.

(** Repeated values.  Without the uniqueness of values, ArrowDown under an
    echoing Host does not land on the next position but on the first
    position that carries the next option's value: the new index is at
    most the next position, and no earlier position has that value. *)
Theorem arrow_down_lands_on_first
  (opts : list CategoryOption) (ph : string) (s : widget) :
  opts <> [] ->
  isOpen s = true ->
  let next := (idxSelected (render opts ph s) + 1) mod size opts in
  let s' := step echo opts ph s (KeyDown "ArrowDown") in
  let i' := idxSelected (render opts ph s') in
  hostSelected s' = value_at opts next /\
  value_at opts i' = value_at opts next /\
  0 <= i' <= next /\
  (forall z, 0 <= z < i' -> value_at opts z <> value_at opts next).
Proof.
  intros Hne Ho. cbv zeta.
  rewrite (CategoryFilterSpec.step_ArrowDown echo opts ph s Hne Ho). cbv zeta.
  pose proof (OptionSetFacts.idxSelected_range (render opts ph s)) as [H0 _].
  pose proof (OptionSetFacts.size_pos opts Hne) as Hn.
  set (next := (idxSelected (render opts ph s) + 1) mod size opts).
  assert (Hr : 0 <= next < size opts) by (apply Z.mod_pos_bound; lia).
  unfold render. cbn [hostSelected echo].
  set (p' := {| selected := value_at opts next; options := opts;
                placeholder := ph |}).
  assert (Hin : In (selected p') (map value (options p'))).
  { simpl. unfold value_at. apply nth_In. rewrite length_map.
    unfold size in Hr. lia. }
  destruct (first_occurrence p' Hin) as (o & Hix & Hv & _ & Hfirst).
  pose proof (OptionSetFacts.idxSelected_range p') as [Hp0 _].
  split; [reflexivity|]. repeat split.
  - now apply (NavigationSpec.value_at_idxSelected p').
  - exact Hp0.
  - destruct (Z.le_gt_cases (idxSelected p') next) as [Hle | Hgt]; [exact Hle|].
    exfalso. apply (Hfirst next); [lia | reflexivity].
  - exact Hfirst.
Qed.

(** On [a; b; b; c], ArrowDown from "b" asks for "b" again and stays at
    index 1: "c" is out of reach of ArrowDown. *)
Lemma arrow_down_lands_on_first_witness :
  let s' := step echo Sample.repeated "All Categories"
              (Sample.opened "b") (KeyDown "ArrowDown") in
  let i' := idxSelected (render Sample.repeated "All Categories" s') in
  hostSelected s' = "b" /\
  value_at Sample.repeated i' = "b" /\
  0 <= i' <= 2 /\
  (forall z, 0 <= z < i' -> value_at Sample.repeated z <> "b").
Proof.
  apply (arrow_down_lands_on_first Sample.repeated "All Categories"
           (Sample.opened "b")).
  - discriminate.
  - reflexivity.
Defined.

End ResolutionSpec.

(** ** The rendered rows and their accessibility attributes *)

Module ViewSpec.

Import CategoryFilter.

Lemma option_rows_nth (p : Props) (j : nat) :
  nth_error (option_rows p) j
  = option_map
      (fun opt =>
         {| row_id := String.append "cat-" (JS.number_to_string (Z.of_nat j));
            aria_selected := String.eqb (selected p) (value opt);
            react_key := JS.or_else (Some (value opt)) "__all";
            row_text := label opt |})
      (nth_error (options p) j).
Proof.
  unfold option_rows, JS.map_indexed.
  rewrite ArrayFacts.map_indexed_from_nth.
  destruct (nth_error (options p) j); reflexivity.
Qed.

Lemma option_rows_length (p : Props) :
  List.length (option_rows p) = List.length (options p).
Proof. apply ArrayFacts.map_indexed_from_length. Qed.

(** Row ids.  Whatever the options, one row is rendered per option, in
    order, and no two rows share an [id]. *)
Theorem row_ids_distinct (p : Props) :
  List.length (option_rows p) = List.length (options p) /\
  map row_text (option_rows p) = map label (options p) /\
  NoDup (map row_id (option_rows p)).
Proof.
  split; [apply option_rows_length|]. split.
  - apply (nth_ext _ _ "" ""); [now rewrite !length_map, option_rows_length|].
    intros j Hj. rewrite length_map in Hj.
    destruct (nth_error (option_rows p) j) as [r|] eqn:Er;
      [|apply nth_error_None in Er; lia].
    pose proof Er as Er'. rewrite option_rows_nth in Er'.
    destruct (nth_error (options p) j) as [o|] eqn:Eo; [|discriminate].
    simpl in Er'. injection Er' as <-.
    rewrite (nth_error_nth (map row_text (option_rows p)) j "" (x := label o))
      by (now rewrite nth_error_map, Er).
    rewrite (nth_error_nth (map label (options p)) j "" (x := label o))
      by (now rewrite nth_error_map, Eo).
    reflexivity.
  - apply NoDup_nth_error. intros i j Hi Heq.
    rewrite length_map, option_rows_length in Hi.
    rewrite !nth_error_map, !option_rows_nth in Heq.
    destruct (nth_error (options p) i) as [oi|] eqn:Ei;
      [|apply nth_error_None in Ei; lia].
    destruct (nth_error (options p) j) as [oj|] eqn:Ej; [|discriminate].
    simpl in Heq. injection Heq as Heq.
    apply ArrayFacts.number_to_string_inj in Heq. lia.
Qed.

(** Active descendant.  On a non-empty OptionSet containing [selected],
    the row that [aria-activedescendant] names exists and is marked
    [aria-selected]; if the values are unique it is the only row so
    marked. *)
Theorem active_descendant_is_selected_row (p : Props) :
  In (selected p) (map value (options p)) ->
  exists r : OptionRow,
    In r (option_rows p) /\
    row_id r = aria_activedescendant p /\
    aria_selected r = true /\
    (unique_values (options p) ->
     forall r', In r' (option_rows p) -> aria_selected r' = true -> r' = r).
Proof.
  intros Hin.
  destruct (NavigationSpec.resolve_selected p Hin)
    as (j & o & Hnth & Ho & Hi & _ & _).
  pose proof (option_rows_nth p j) as Hrow. rewrite Hnth in Hrow. simpl in Hrow.
  eexists. split; [exact (nth_error_In _ _ Hrow)|]. simpl.
  split; [unfold aria_activedescendant; now rewrite Hi|].
  split; [rewrite Ho; apply String.eqb_refl|].
  intros Hu r' Hr' Hsel.
  apply In_nth_error in Hr'. destruct Hr' as [j' Hj'].
  pose proof Hj' as Hj''. rewrite option_rows_nth in Hj''.
  destruct (nth_error (options p) j') as [o'|] eqn:Eo'; [|discriminate].
  simpl in Hj''. injection Hj'' as <-. simpl in Hsel.
  apply String.eqb_eq in Hsel.
  assert (j' = j).
  { assert (E1 : JS.findIndex (fun x => String.eqb (value x) (value o'))
                   (options p) = Z.of_nat j')
      by (now apply OptionSetFacts.findIndex_unique).
    assert (E2 : JS.findIndex (fun x => String.eqb (value x) (value o))
                   (options p) = Z.of_nat j)
      by (now apply OptionSetFacts.findIndex_unique).
    rewrite <- Hsel, <- Ho in E1. rewrite E1 in E2. lia. }
  subst j'. rewrite Hnth in Eo'. injection Eo' as <-. reflexivity.
Qed.

Lemma active_descendant_is_selected_row_witness :
  exists r : OptionRow,
    In r (option_rows {| selected := "music"; options := Sample.categories;
                         placeholder := "All Categories" |}) /\
    row_id r = "cat-2" /\
    aria_selected r = true /\
    (forall r',
        In r' (option_rows {| selected := "music"; options := Sample.categories;
                              placeholder := "All Categories" |}) ->
        aria_selected r' = true -> r' = r).
Proof.
  destruct (active_descendant_is_selected_row
              {| selected := "music"; options := Sample.categories;
                 placeholder := "All Categories" |})
    as (r & Hin & Hid & Hsel & Honly).
  - simpl. auto.
  - exists r. split; [exact Hin|]. split; [exact Hid|]. split; [exact Hsel|].
    apply Honly. unfold unique_values. simpl.
    repeat constructor; simpl; intuition discriminate.
Defined.

(** Unknown selection.  When [selected] is the value of no option, no row
    is marked [aria-selected], yet [aria-activedescendant] is "cat-0": it
    names the first row if there is one, and no element at all when the
    OptionSet is empty. *)
Theorem unknown_selected_marks_no_row (p : Props) :
  (forall o, In o (options p) -> value o <> selected p) ->
  Forall (fun r => aria_selected r = false) (option_rows p) /\
  aria_activedescendant p = "cat-0" /\
  (options p = [] -> option_rows p = []) /\
  (options p <> [] ->
   exists r, nth_error (option_rows p) 0 = Some r /\ row_id r = "cat-0").
Proof.
  intros Hout. split; [|split; [|split]].
  - apply Forall_forall. intros r Hr.
    apply In_nth_error in Hr. destruct Hr as [j Hj].
    rewrite option_rows_nth in Hj.
    destruct (nth_error (options p) j) as [o|] eqn:Eo; [|discriminate].
    simpl in Hj. injection Hj as <-. simpl.
    apply String.eqb_neq. intros E.
    apply (Hout o (nth_error_In _ _ Eo)). now symmetry.
  - unfold aria_activedescendant.
    unfold idxSelected, JS.findIndex.
    rewrite (JSFacts.findIndex_from_none _ _ 0); [reflexivity|].
    intros o Ho. apply String.eqb_neq. now apply Hout.
  - intros E. unfold option_rows. now rewrite E.
  - intros Hne. rewrite option_rows_nth.
    destruct (options p) as [|o l]; [congruence|]. simpl. eexists. split; reflexivity.
Qed.

Lemma unknown_selected_marks_no_row_witness :
  let p := {| selected := "zzz"; options := Sample.categories;
              placeholder := "All Categories" |} in
  Forall (fun r => aria_selected r = false) (option_rows p) /\
  aria_activedescendant p = "cat-0" /\
  exists r, nth_error (option_rows p) 0 = Some r /\ row_id r = "cat-0".
Proof.
  cbv zeta.
  destruct (unknown_selected_marks_no_row
              {| selected := "zzz"; options := Sample.categories;
                 placeholder := "All Categories" |})
    as (Hnone & Hactive & _ & Hfirst).
  - simpl. intros o [<- | [<- | [<- | []]]]; simpl; discriminate.
  - split; [exact Hnone|]. split; [exact Hactive|].
    apply Hfirst. simpl. discriminate.
Defined.

(** [opt.value || "__all"] *)
Lemma react_key_of_value (v : string) :
  JS.or_else (Some v) "__all" = if String.eqb v "" then "__all" else v.
Proof. unfold JS.or_else, JS.truthy_string. now destruct (String.eqb v ""). Qed.

Lemma option_rows_keys (p : Props) :
  map react_key (option_rows p)
  = map (fun v => JS.or_else (Some v) "__all") (map value (options p)).
Proof.
  unfold option_rows, JS.map_indexed. generalize 0.
  induction (options p) as [|o l IH]; intros k; simpl; [reflexivity|].
  now rewrite IH.
Qed.

Lemma NoDup_map_eq {A B : Type} (f : A -> B) (l : list A) (a b : A) :
  NoDup (map f l) -> In a l -> In b l -> f a = f b -> a = b.
Proof.
  induction l as [|x l IH]; intros Hnd Ha Hb Hf; [destruct Ha|].
  simpl in Hnd. apply NoDup_cons_iff in Hnd. destruct Hnd as [Hx Hnd].
  destruct Ha as [-> | Ha], Hb as [-> | Hb].
  - reflexivity.
  - exfalso. apply Hx. rewrite Hf. now apply in_map.
  - exfalso. apply Hx. rewrite <- Hf. now apply in_map.
  - now apply IH.
Qed.

(** React keys.  With unique values the rows' keys are distinct exactly
    when the OptionSet does not hold both the empty value and the value
    "__all": the empty value is keyed as "__all", so the two collide. *)
Theorem react_keys_distinct (p : Props) :
  unique_values (options p) ->
  NoDup (map react_key (option_rows p)) <->
  ~ (In "" (map value (options p)) /\ In "__all" (map value (options p))).
Proof.
  intros Hu. rewrite option_rows_keys. split.
  - intros Hnd [He Ha].
    assert (E : "" = "__all"); [|discriminate].
    now apply (NoDup_map_eq _ _ _ _ Hnd He Ha).
  - intros Hnot. apply NoDup_map_NoDup_ForallPairs; [|exact Hu].
    intros x y Hx Hy. rewrite !react_key_of_value.
    destruct (String.eqb_spec x ""), (String.eqb_spec y ""); subst; intros E.
    + reflexivity.
    + exfalso. apply Hnot. split; [exact Hx | now rewrite E].
    + exfalso. apply Hnot. split; [exact Hy | now rewrite <- E].
    + exact E.
Qed.

Lemma react_keys_distinct_witness :
  (NoDup (map react_key
            (option_rows {| selected := "art"; options := Sample.categories;
                            placeholder := "All Categories" |})) <->
   ~ (In "" ["" ; "art"; "music"] /\ In "__all" [""; "art"; "music"])) /\
  ~ NoDup (map react_key
             (option_rows {| selected := "";
                             options := [ {| value := ""; label := "All" |};
                                          {| value := "__all"; label := "Every" |} ];
                             placeholder := "All Categories" |})).
Proof.
  split.
  - apply (react_keys_distinct
             {| selected := "art"; options := Sample.categories;
                placeholder := "All Categories" |}).
    unfold unique_values. simpl.
    repeat constructor; simpl; intuition discriminate.
  - intros Hnd.
    apply (react_keys_distinct
             {| selected := "";
                options := [ {| value := ""; label := "All" |};
                             {| value := "__all"; label := "Every" |} ];
                placeholder := "All Categories" |}) in Hnd.
    + apply Hnd. simpl. auto.
    + unfold unique_values. simpl.
      repeat constructor; simpl; intuition discriminate.
Defined.

End ViewSpec.

(** ** The sort label and the class names of both filters *)

Module PresentationSpec.

(** The sort label.  The label on the trigger is the label of the option
    at [idxSelected], empty or not: "oldest" shows the second label and
    every other value the first, so the [?? labels.mostRecent] fallback is
    never taken. *)
Theorem sort_label_total (p : SortFilter.Props) :
  (exists o : CategoryOption,
      JS.index (SortFilter.options p) (JS.Int (SortFilter.idxSelected p)) = Some o /\
      SortFilter.selectedLabel p = label o) /\
  SortFilter.selectedLabel p
  = (if String.eqb (SortFilter.selected p) "oldest"
     then SortFilter.label_oldest (SortFilter.labels p)
     else SortFilter.label_mostRecent (SortFilter.labels p)).
Proof.
  unfold SortFilter.selectedLabel, SortFilter.idxSelected, JS.findIndex,
    SortFilter.options, SortFilter.to_string.
  cbn [JS.findIndex_from value].
  destruct (String.eqb_spec "mostRecent" (SortFilter.selected p)) as [<- | H1].
  - simpl. split; [eexists; split; reflexivity | reflexivity].
  - destruct (String.eqb_spec "oldest" (SortFilter.selected p)) as [<- | H2].
    + simpl. split; [eexists; split; reflexivity | reflexivity].
    + simpl. rewrite (proj2 (String.eqb_neq _ "oldest")) by congruence.
      split; [eexists; split; reflexivity | reflexivity].
Qed.

(** One mapper.  The two filters map every theme and accent colour to the
    same class names; they differ only in the accent they default to. *)
Theorem themeClasses_shared (isDark : bool) (themeColor : ThemeColor) :
  SortFilter.themeClasses isDark themeColor
  = CategoryFilter.themeClasses isDark themeColor /\
  SortFilter.default_themeColor <> CategoryFilter.default_themeColor.
Proof.
  split; [destruct isDark, themeColor; reflexivity | discriminate].
Qed.

(** The yellow border.  The extra border class of the dropdown is empty
    unless the accent is yellow, and for yellow it is the class the rows'
    accent starts with, in the light and in the dark theme alike; the
    classes of the trigger and of the dropdown do not depend on the accent
    at all. *)
Theorem yellow_border_matches_rows (isDark : bool) (themeColor : ThemeColor) :
  let classes := CategoryFilter.themeClasses isDark themeColor in
  let base := if isDark then CategoryFilter.dark else CategoryFilter.light in
  (dropdownBorder classes = "" <-> themeColor <> yellow) /\
  String.prefix (dropdownBorder classes) (accent base themeColor) = true /\
  button classes = button (CategoryFilter.themeClasses isDark purple) /\
  dropdown classes = dropdown (CategoryFilter.themeClasses isDark purple).
Proof.
  cbv zeta.
  destruct isDark, themeColor; simpl;
    repeat split; try reflexivity; try discriminate; try congruence;
    intros H; exfalso; now apply H.
Qed.

End PresentationSpec.

(** ** The password-reset page around its request *)

Module FormSpec.

Import ForgotPassword.

(** In flight.  Whatever the page showed before and whatever the backend
    will answer, while the request is in flight the submit button is
    disabled, both banners are cleared and the email is untouched; the
    request is the only one sent, and what follows it sends none. *)
Theorem request_in_flight (base : string) (srv : backend) (s : form) :
  let t := trace (handleForgotPassword base srv s) in
  let w := in_flight base srv s in
  submit_disabled w = true /\
  displayed_message w = None /\
  displayed_error w = None /\
  email w = email s /\
  posts (until_post t)
  = [(String.append base "/forgot-password", JS.Obj [("email", JS.Str (email s))])] /\
  exists rest,
    t = until_post t ++ rest /\
    posts rest = [] /\
    submit base srv s = fold_left apply rest w.
Proof.
  cbv zeta. unfold in_flight, submit, handleForgotPassword, axios_post.
  destruct (srv (String.append base "/forgot-password")
              (JS.Obj [("email", JS.Str (email s))])) as [data | err].
  - destruct data as [| | b | z | x | items | fields];
      try (simpl; repeat split; eexists; repeat split; reflexivity).
    simpl. destruct (JS.lookup "message" fields) as [m|]; simpl;
      repeat split; eexists; repeat split; reflexivity.
  - simpl. repeat split. eexists. repeat split; reflexivity.
Qed.

(** Banners exclude each other.  After a submit, whatever was shown
    before and however the request settled, either the generic error is
    shown and nothing of a message, or no error is shown, the message cell
    is truthy and the success banner is rendered around it: with its text
    for a string or a number, empty for [true], and with rendering
    throwing when the value is, or holds, an object. *)
Theorem banners_exclusive (base : string) (srv : backend) (s : form) :
  let s' := submit base srv s in
  (displayed_error s' = Some generic_error /\ message_banner s' = Nothing) \/
  (displayed_error s' = None /\
   JS.truthy (message s') = true /\
   message_banner s'
   = match child_text (message s') with
     | Some text => Banner text
     | None => Crash
     end).
Proof.
  cbv zeta. unfold submit, handleForgotPassword, axios_post.
  destruct (srv (String.append base "/forgot-password")
              (JS.Obj [("email", JS.Str (email s))])) as [data | err].
  - destruct data as [| | b | z | x | items | fields];
      try (left; split; reflexivity);
      try (right; repeat split; reflexivity).
    simpl. destruct (JS.lookup "message" fields) as [m|]; simpl.
    + right. split; [reflexivity|].
      assert (Ht : JS.truthy (JS.or m (JS.Str success_default)) = true)
        by apply ForgotPasswordSpec.or_default_truthy.
      split; [exact Ht|]. unfold message_banner; simpl. now rewrite Ht.
    + right. repeat split; reflexivity.
  - left. split; reflexivity.
Qed.

(** Last submit wins.  The state after a submit depends only on the email
    and on how the request settles: two pages with the same email end up
    equal, so a second submit erases every trace of the first, a submit
    repeated against the same backend changes nothing more, and once an
    email is typed into the input what the page held before is
    irrelevant. *)
Theorem submit_forgets_the_past
  (base : string) (srv srv' : backend) (s1 s2 : form) :
  email s1 = email s2 ->
  submit base srv s1 = submit base srv s2 /\
  submit base srv (submit base srv' s1) = submit base srv s1 /\
  submit base srv (submit base srv s1) = submit base srv s1 /\
  (forall typed,
      submit base srv (input_onChange typed (submit base srv' s1))
      = submit base srv (input_onChange typed initial)).
Proof.
  assert (Hdep : forall a b, email a = email b ->
                             submit base srv a = submit base srv b).
  { intros a b E. unfold submit, handleForgotPassword, axios_post. rewrite E.
    destruct (srv (String.append base "/forgot-password")
                (JS.Obj [("email", JS.Str (email b))])) as [data | err].
    - destruct data as [| | q | z | x | items | fields];
        try (simpl; now rewrite E).
      simpl. destruct (JS.lookup "message" fields); simpl; now rewrite E.
    - simpl. now rewrite E. }
  assert (Hmail : forall f a, email (submit base f a) = email a).
  { intros f a. unfold submit, handleForgotPassword, axios_post.
    destruct (f (String.append base "/forgot-password")
                (JS.Obj [("email", JS.Str (email a))])) as [data | err].
    - destruct data as [| | q | z | x | items | fields]; try reflexivity.
      simpl. now destruct (JS.lookup "message" fields).
    - reflexivity. }
  intros E. split; [now apply Hdep|].
  split; [apply Hdep, Hmail|]. split; [apply Hdep, Hmail|].
  intros typed. now apply Hdep.
Qed.

Lemma submit_forgets_the_past_witness :
  let ok := Sample.accepting (JS.Obj [("message", JS.Str "Check your inbox")]) in
  let ko := Sample.failing (JS.AxiosError (Some 500)) in
  let s1 := Sample.filled "user@example.com" in
  let s2 := submit "https://api.example.com" ko s1 in
  submit "https://api.example.com" ok s1 = submit "https://api.example.com" ok s2 /\
  submit "https://api.example.com" ok (submit "https://api.example.com" ko s1)
  = submit "https://api.example.com" ok s1 /\
  submit "https://api.example.com" ok (submit "https://api.example.com" ok s1)
  = submit "https://api.example.com" ok s1 /\
  (forall typed,
      submit "https://api.example.com" ok
        (input_onChange typed (submit "https://api.example.com" ko s1))
      = submit "https://api.example.com" ok (input_onChange typed initial)).
Proof.
  cbv zeta.
  apply (submit_forgets_the_past "https://api.example.com"
           (Sample.accepting (JS.Obj [("message", JS.Str "Check your inbox")]))
           (Sample.failing (JS.AxiosError (Some 500)))
           (Sample.filled "user@example.com")
           (submit "https://api.example.com"
              (Sample.failing (JS.AxiosError (Some 500)))
              (Sample.filled "user@example.com"))).
  reflexivity.
Defined.

End FormSpec.

(** ** SortFilter along every sequence of events *)

Module SortInvariantSpec.

(** The sort filter cannot throw.  Its OptionSet always holds its two
    options, so no sequence of events, under any Host, any labels and any
    [selected] (a string outside [SortValue] included), makes a handler
    throw. *)
Theorem sort_never_throws
  (h : host) (lbls : SortFilter.Labels) (evs : list event) (s : widget) :
  uncaught (SortFilter.run h lbls s evs) = uncaught s.
Proof.
  rewrite (SortFilterFacts.run_same h lbls "").
  apply InvariantSpec.run_never_throws. discriminate.
Qed.

(** The sort filter notifies sort values only.  Whatever string the Host
    passes as [selected], every call of [onChange] carries "mostRecent" or
    "oldest". *)
Theorem sort_notifies_sort_values
  (h : host) (lbls : SortFilter.Labels) (evs : list event) (s : widget) :
  Forall (fun v => exists sv, v = SortFilter.to_string sv) (notified s) ->
  Forall (fun v => exists sv, v = SortFilter.to_string sv)
    (notified (SortFilter.run h lbls s evs)).
Proof.
  intros Hs. rewrite (SortFilterFacts.run_same h lbls "").
  set (opts := [ {| value := "mostRecent"; label := SortFilter.label_mostRecent lbls |};
                 {| value := "oldest"; label := SortFilter.label_oldest lbls |} ]).
  assert (Hval : forall v, In v (map value opts) <->
                           exists sv, v = SortFilter.to_string sv).
  { intros v. simpl. split.
    - intros [<- | [<- | []]];
        [now exists SortFilter.mostRecent | now exists SortFilter.oldest].
    - intros [[|] ->]; simpl; auto. }
  eapply Forall_impl; [intros v; apply (proj1 (Hval v))|].
  apply InvariantSpec.run_notifies_values.
  eapply Forall_impl; [intros v; apply (proj2 (Hval v))|]. exact Hs.
Qed.

Lemma sort_notifies_sort_values_witness :
  Forall (fun v => exists sv, v = SortFilter.to_string sv)
    (notified (SortFilter.run echo SortFilter.default_labels (mount "zzz")
                 [ClickTrigger; KeyDown "ArrowUp"; KeyDown "ArrowDown";
                  ClickOption 0; ClickOption 9])).
Proof.
  apply (sort_notifies_sort_values echo SortFilter.default_labels).
  constructor.
Defined.

(** With two options the arrows coincide.  In the sort filter ArrowDown
    and ArrowUp do the same thing from every state: both notify the option
    other than the one [selected] resolves to. *)
Theorem sort_arrows_coincide
  (h : host) (lbls : SortFilter.Labels) (s : widget) :
  SortFilter.step h lbls s (KeyDown "ArrowDown")
  = SortFilter.step h lbls s (KeyDown "ArrowUp") /\
  (isOpen s = true ->
   notified (SortFilter.step h lbls s (KeyDown "ArrowDown"))
   = notified s
     ++ [if String.eqb (hostSelected s) "oldest" then "mostRecent" else "oldest"]).
Proof.
  destruct s as [o f sel seen errs]. destruct o; [|split; [reflexivity | discriminate]].
  unfold SortFilter.step, SortFilter.dispatch, SortFilter.onKeyDown,
    SortFilter.render, SortFilter.idxSelected, JS.findIndex, SortFilter.options,
    SortFilter.to_string.
  cbn [isOpen hostSelected SortFilter.selected SortFilter.labels negb
       JS.findIndex_from value].
  destruct (String.eqb_spec "mostRecent" sel) as [<- | H1].
  - split; [reflexivity | intros _; reflexivity].
  - destruct (String.eqb_spec "oldest" sel) as [<- | H2].
    + split; [reflexivity | intros _; reflexivity].
    + rewrite (proj2 (String.eqb_neq sel "oldest")) by congruence.
      split; [reflexivity | intros _; reflexivity].
Qed.

Lemma sort_arrows_coincide_witness :
  let s := Sample.opened "oldest" in
  SortFilter.step echo SortFilter.default_labels s (KeyDown "ArrowDown")
  = SortFilter.step echo SortFilter.default_labels s (KeyDown "ArrowUp") /\
  notified (SortFilter.step echo SortFilter.default_labels s (KeyDown "ArrowDown"))
  = [] ++ ["mostRecent"].
Proof.
  cbv zeta.
  destruct (sort_arrows_coincide echo SortFilter.default_labels
              (Sample.opened "oldest")) as [Hsame Hnote].
  split; [exact Hsame|]. apply Hnote. reflexivity.
Defined.

End SortInvariantSpec.
